(** * Realtime notifications of [ConversationMessagesClient]

    A shallow embedding of
    [sdk/communication/communication-messages-rest/src/conversationMessagesClient.ts]:
    the lifecycle flag, the event bus (a Node.js [EventEmitter]), the bridge
    closures installed on the signaling transport, and the two asynchronous
    lifecycle methods with their suspension point made explicit. *)

From stdpp Require Import base option list gmap strings.

(** ** Event names *)

(** Modelled from the spec: [ChatEventId] is declared in [./signaling/events.js];
    its members are the six event names of the [on] overloads (spec 4.3). *)
Inductive ChatEventId : Set :=
| chatMessageReceived
| chatThreadPropertiesUpdated
| participantsAdded
| participantsRemoved
| realTimeNotificationConnected
| realTimeNotificationDisconnected.

#[global] Instance ChatEventId_eq_dec : EqDecision ChatEventId.
Proof. solve_decision. Defined.

Definition ChatEventId_code (k : ChatEventId) : nat :=
  match k with
  | chatMessageReceived => 0
  | chatThreadPropertiesUpdated => 1
  | participantsAdded => 2
  | participantsRemoved => 3
  | realTimeNotificationConnected => 4
  | realTimeNotificationDisconnected => 5
  end.

Definition ChatEventId_decode (n : nat) : ChatEventId :=
  match n with
  | 0 => chatMessageReceived
  | 1 => chatThreadPropertiesUpdated
  | 2 => participantsAdded
  | 3 => participantsRemoved
  | 4 => realTimeNotificationConnected
  | _ => realTimeNotificationDisconnected
  end.

#[global] Instance ChatEventId_countable : Countable ChatEventId.
Proof.
  apply (inj_countable' ChatEventId_code ChatEventId_decode).
  intros []; reflexivity.
Defined.

(** The two lifecycle signals, exempt from the guard of [on]. *)
Definition is_lifecycle_signal (k : ChatEventId) : bool :=
  match k with
  | realTimeNotificationConnected | realTimeNotificationDisconnected => true
  | _ => false
  end.

Definition is_domain_event (k : ChatEventId) : bool := negb (is_lifecycle_signal k).

(** The names under which the signaling transport raises its events (the
    first argument of the five [signalingClient.on] calls). *)
Module Signaling.
Inductive EventName : Set :=
| connectionChanged
| chatMessageReceived
| chatThreadPropertiesUpdated
| participantsAdded
| participantsRemoved.

#[global] Instance EventName_eq_dec : EqDecision EventName.
Proof. solve_decision. Defined.
End Signaling.

(** [ConnectionState] of the signaling package: the source names two of its
    members; every other member is an [OtherState]. *)
Inductive ConnectionState : Set :=
| Connected
| Disconnected
| OtherState (code : nat).

#[global] Instance ConnectionState_eq_dec : EqDecision ConnectionState.
Proof. solve_decision. Defined.

(** A JavaScript [Error] with its message. *)
Inductive Exn : Set := Error (message : string).

#[global] Instance Exn_eq_dec : EqDecision Exn.
Proof. solve_decision. Defined.

Definition not_supported_in_node : Exn :=
  Error "Realtime notifications are not supported in node js."%string.
Definition only_supported_in_browser : Exn :=
  Error "Realtime notifications are only supported in the browser."%string.
Definition must_start_first : Exn :=
  Error "You must call startRealtimeNotifications before you can subscribe to events."%string.

(** The error taxonomy of spec section 7, read off the messages thrown. *)
Definition CapabilityError (e : Exn) : Prop :=
  e = not_supported_in_node \/ e = only_supported_in_browser.
Definition PreconditionError (e : Exn) : Prop := e = must_start_first.

(** A listener is a function reference, compared by identity. *)
Definition ListenerRef := nat.

(** The closures that [subscribeToSignalingEvents] hands to the transport,
    one per arrow function of the source. *)
Inductive Bridge : Set :=
| bridgeConnectionChanged
| bridgeChatMessageReceived
| bridgeChatThreadPropertiesUpdated
| bridgeParticipantsAdded
| bridgeParticipantsRemoved.

(** ** The Node.js [EventEmitter] *)

(** The emitter of the client is the [EventEmitter] of the [events] module
    that the source imports; its four methods used by the source are
    modelled as that module documents them. *)

Module EventEmitter.
(** [_events]: event name to listener array; a name with no listener has
    no entry. *)
Abbreviation t := (gmap ChatEventId (list ListenerRef)).

Definition listeners (k : ChatEventId) (em : t) : list ListenerRef :=
  default [] (em !! k).

(** [emitter.on(k, l)]: appended to the end of the listener array, with no
    check whether [l] is already there. *)
Definition on (k : ChatEventId) (l : ListenerRef) (em : t) : t :=
  <[k := listeners k em ++ [l]]> em.

(** The array search of [removeListener] runs from the end of the array:
    the most recently added instance of [l] is the one spliced out.
    [None] when [l] does not occur. *)
Fixpoint remove_last (l : ListenerRef) (ls : list ListenerRef)
  : option (list ListenerRef) :=
  match ls with
  | [] => None
  | x :: rest =>
      match remove_last l rest with
      | Some rest' => Some (x :: rest')
      | None => if decide (x = l) then Some rest else None
      end
  end.

(** [emitter.removeListener(k, l)]: at most one instance is removed; an
    unknown name or listener leaves the emitter as it is; the entry is
    dropped with its last listener. *)
Definition removeListener (k : ChatEventId) (l : ListenerRef) (em : t) : t :=
  match em !! k with
  | None => em
  | Some ls =>
      match remove_last l ls with
      | None => em
      | Some [] => delete k em
      | Some ls' => <[k := ls']> em
      end
  end.

(** [emitter.removeAllListeners()] with no argument. *)
Definition removeAllListeners (em : t) : t := ∅.
End EventEmitter.

(** Removal of the first matching registration, as spec section 4.3 words
    the behaviour of [off]. *)
Fixpoint remove_first (l : ListenerRef) (ls : list ListenerRef) : list ListenerRef :=
  match ls with
  | [] => []
  | x :: rest => if decide (x = l) then rest else x :: remove_first l rest
  end.


(** ** The client, the transport and the observable trace *)

Section Client.

(** The event objects of [./signaling/events.js] are passed through as they
    are; their shape plays no role. *)
Context {Payload : Type}.

(** What a transport handler or a listener receives as an argument. *)
Inductive Value : Type :=
| VConnectionState (s : ConnectionState)
| VPayload (p : Payload).

(** The calls that cross the boundary of the client, in the order made. *)
Inductive Effect : Type :=
| TransportStart
| TransportStop
| TransportOn (name : Signaling.EventName)
| Emit (event : ChatEventId) (args : list Value)
| Call (listener : ListenerRef) (args : list Value).

(** Modelled from the spec: the signaling transport is created by
    [getSignalingClient] of [./signaling/signalingClient.js]; of its state the
    client sees only the registry that [signalingClient.on] fills (spec 4.1). *)
Record SignalingClient : Set := { handlers : list (Signaling.EventName * Bridge) }.

Record ConversationMessagesClient : Type := {
  signalingClient : option SignalingClient;
  emitter : EventEmitter.t;
  isRealtimeNotificationsStarted : bool;
}.

Record World : Type := { this : ConversationMessagesClient; trace : list Effect }.

(** How a call ends: it returns, or it throws; the mutations made before a
    throw stay. *)
Inductive Completion (A : Type) : Type :=
| Normal (a : A) (w : World)
| Thrown (e : Exn) (w : World).
Arguments Normal {A} a w.
Arguments Thrown {A} e w.

Definition world_of {A} (c : Completion A) : World :=
  match c with Normal _ w | Thrown _ w => w end.

Definition M (A : Type) : Type := World -> Completion A.

Definition ret {A} (a : A) : M A := fun w => Normal a w.
Definition throw {A} (e : Exn) : M A := fun w => Thrown e w.
Definition bind {A B} (m : M A) (f : A -> M B) : M B :=
  fun w => match m w with
           | Normal a w' => f a w'
           | Thrown e w' => Thrown e w'
           end.

Notation "'let!' x ':=' c 'in' k" := (bind c (fun x => k))
  (at level 10, x name, c at level 100, k at level 200).
Notation "c '>>' k" := (bind c (fun _ => k))
  (at level 100, k at level 200, right associativity).

Definition get_this : M ConversationMessagesClient := fun w => Normal (this w) w.

(** The two primitive steps on the world: a write to [this] and one more
    entry at the end of the trace. *)
Definition with_this (c : ConversationMessagesClient) (w : World) : World :=
  {| this := c; trace := trace w |}.
Definition record (e : Effect) (w : World) : World :=
  {| this := this w; trace := trace w ++ [e] |}.

Definition set_this (c : ConversationMessagesClient) : M unit :=
  fun w => Normal tt (with_this c w).
Definition log (e : Effect) : M unit :=
  fun w => Normal tt (record e w).

Definition set_started (b : bool) (c : ConversationMessagesClient) :=
  {| signalingClient := signalingClient c;
     emitter := emitter c;
     isRealtimeNotificationsStarted := b |}.
Definition set_emitter (em : EventEmitter.t) (c : ConversationMessagesClient) :=
  {| signalingClient := signalingClient c;
     emitter := em;
     isRealtimeNotificationsStarted := isRealtimeNotificationsStarted c |}.
Definition set_signalingClient (sc : option SignalingClient)
    (c : ConversationMessagesClient) :=
  {| signalingClient := sc;
     emitter := emitter c;
     isRealtimeNotificationsStarted := isRealtimeNotificationsStarted c |}.

(** Modelled from the spec: [getSignalingClient] returns a transport, or an
    absent value where the environment has no realtime transport (spec 6). *)
Definition getSignalingClient (supported : bool) : option SignalingClient :=
  if supported then Some {| handlers := [] |} else None.

(** The constructor: the transport from the factory, a new emitter, not
    started. *)
Definition new_client (supported : bool) : ConversationMessagesClient :=
  {| signalingClient := getSignalingClient supported;
     emitter := ∅;
     isRealtimeNotificationsStarted := false |}.

Definition new_world (supported : bool) : World :=
  {| this := new_client supported; trace := [] |}.

(** ** [on] and [off] *)

Definition on (event : ChatEventId) (listener : ListenerRef) : M unit :=
  let! c := get_this in
  match signalingClient c with
  | None => throw only_supported_in_browser
  | Some _ =>
      if negb (isRealtimeNotificationsStarted c)
         && bool_decide (event ≠ realTimeNotificationConnected)
         && bool_decide (event ≠ realTimeNotificationDisconnected)
      then throw must_start_first
      else set_this (set_emitter (EventEmitter.on event listener (emitter c)) c)
  end.

Definition off (event : ChatEventId) (listener : ListenerRef) : M unit :=
  let! c := get_this in
  match signalingClient c with
  | None => throw only_supported_in_browser
  | Some _ =>
      set_this (set_emitter (EventEmitter.removeListener event listener (emitter c)) c)
  end.

(** ** Listeners and [emit] *)

(** What the body of an application listener does when it runs: it may call
    back into [on] and [off] of the client, and it may throw. *)
Inductive Action : Set :=
| CallOn (event : ChatEventId) (listener : ListenerRef)
| CallOff (event : ChatEventId) (listener : ListenerRef)
| Throw (e : Exn).

Variable body : ListenerRef -> list Action.

Definition run_action (a : Action) : M unit :=
  match a with
  | CallOn k l => on k l
  | CallOff k l => off k l
  | Throw e => throw e
  end.

Fixpoint run_body (acts : list Action) : M unit :=
  match acts with
  | [] => ret tt
  | a :: rest => run_action a >> run_body rest
  end.

Definition call (args : list Value) (l : ListenerRef) : M unit :=
  log (Call l args) >> run_body (body l).

Fixpoint call_each (ls : list ListenerRef) (args : list Value) : M unit :=
  match ls with
  | [] => ret tt
  | l :: rest => call args l >> call_each rest args
  end.

(** [emitter.emit(k, ...args)]: [false] when [k] has no listener; otherwise
    the listener array is copied and the copy is called in order, with no
    handler around the calls, and [true] is returned. *)
Definition emit (event : ChatEventId) (args : list Value) : M bool :=
  log (Emit event args) >>
  let! c := get_this in
  match emitter c !! event with
  | None => ret false
  | Some ls => call_each ls args >> ret true
  end.

(** ** The bridge: [subscribeToSignalingEvents] *)

(** The bodies of the five arrow functions. The connection closure compares
    its argument with the two members of [ConnectionState] it knows and does
    nothing for any other value; the other four emit what they were given. *)
Definition apply_bridge (h : Bridge) (payload : Value) : M unit :=
  match h with
  | bridgeConnectionChanged =>
      match payload with
      | VConnectionState Connected =>
          emit realTimeNotificationConnected [] >> ret tt
      | VConnectionState Disconnected =>
          emit realTimeNotificationDisconnected [] >> ret tt
      | _ => ret tt
      end
  | bridgeChatMessageReceived =>
      emit chatMessageReceived [payload] >> ret tt
  | bridgeChatThreadPropertiesUpdated =>
      emit chatThreadPropertiesUpdated [payload] >> ret tt
  | bridgeParticipantsAdded =>
      emit participantsAdded [payload] >> ret tt
  | bridgeParticipantsRemoved =>
      emit participantsRemoved [payload] >> ret tt
  end.

(** Modelled from the spec: [this.signalingClient.on(name, h)] of the
    transport, which is not part of the source, registers [h] under [name]
    (spec 4.1 and 6). The registry is kept as the list of the registrations
    made; what the transport does with a second handler for a name it
    already serves is not described, and the theorems about delivery take
    the bridge as installed once. *)
Definition signalingClient_on (name : Signaling.EventName) (h : Bridge) : M unit :=
  log (TransportOn name) >>
  let! c := get_this in
  match signalingClient c with
  | None => ret tt
  | Some sc =>
      set_this (set_signalingClient (Some {| handlers := handlers sc ++ [(name, h)] |}) c)
  end.

Definition subscribeToSignalingEvents : M unit :=
  let! c := get_this in
  match signalingClient c with
  | None => throw only_supported_in_browser
  | Some _ =>
      signalingClient_on Signaling.connectionChanged bridgeConnectionChanged >>
      signalingClient_on Signaling.chatMessageReceived bridgeChatMessageReceived >>
      signalingClient_on Signaling.chatThreadPropertiesUpdated
        bridgeChatThreadPropertiesUpdated >>
      signalingClient_on Signaling.participantsAdded bridgeParticipantsAdded >>
      signalingClient_on Signaling.participantsRemoved bridgeParticipantsRemoved
  end.

(** The registry after one run of [subscribeToSignalingEvents] on a
    transport without handlers. *)
Definition bridge_handlers : list (Signaling.EventName * Bridge) :=
  [ (Signaling.connectionChanged, bridgeConnectionChanged);
    (Signaling.chatMessageReceived, bridgeChatMessageReceived);
    (Signaling.chatThreadPropertiesUpdated, bridgeChatThreadPropertiesUpdated);
    (Signaling.participantsAdded, bridgeParticipantsAdded);
    (Signaling.participantsRemoved, bridgeParticipantsRemoved) ].

(** Modelled from the spec: the handlers registered under [name] are called
    in the order of their registration (spec 2 and 6). With the bridge
    installed once there is one handler for each name, and the theorems
    about delivery take that case. *)
Fixpoint dispatch (hs : list (Signaling.EventName * Bridge))
    (name : Signaling.EventName) (payload : Value) : M unit :=
  match hs with
  | [] => ret tt
  | (n, h) :: rest =>
      if decide (n = name)
      then apply_bridge h payload >> dispatch rest name payload
      else dispatch rest name payload
  end.

(** Modelled from the spec: the transport raises an event by calling, in
    order, the handlers registered under its name (spec 2 and 6); what a
    handler throws reaches the transport. *)
Definition transport_raises (name : Signaling.EventName) (payload : Value) : M unit :=
  let! c := get_this in
  match signalingClient c with
  | None => ret tt
  | Some sc => dispatch (handlers sc) name payload
  end.

(** ** The asynchronous lifecycle methods *)

Inductive TransportCall : Set := start | stop.

(** How the promise of a transport call settles. *)
Inductive Outcome : Set := Resolved | Rejected (e : Exn).

(** An [async] method runs up to its [await] and is resumed, later, with the
    outcome of the awaited promise and the world as it then is. *)
Inductive Async (A : Type) : Type :=
| Done (c : Completion A)
| Await (call : TransportCall) (w : World) (k : Outcome -> M A).
Arguments Done {A} c.
Arguments Await {A} call w k.

(** [await p]: the value of a resolved promise is dropped here, the reason of
    a rejected one is thrown at the [await]. *)
Definition resume (o : Outcome) : M unit :=
  match o with
  | Resolved => ret tt
  | Rejected e => throw e
  end.

Definition startRealtimeNotifications (w : World) : Async unit :=
  match signalingClient (this w) with
  | None => Done (throw not_supported_in_node w)
  | Some _ =>
      if isRealtimeNotificationsStarted (this w)
      then Done (ret tt w)
      else
        let w1 := with_this (set_started true (this w)) w in
        Await start (record TransportStart w1)
          (fun o => resume o >> subscribeToSignalingEvents)
  end.

Definition stopRealtimeNotifications (w : World) : Async unit :=
  match signalingClient (this w) with
  | None => Done (throw not_supported_in_node w)
  | Some _ =>
      let w1 := with_this (set_started false (this w)) w in
      Await stop (record TransportStop w1)
        (fun o =>
           resume o >>
           let! c := get_this in
           set_this (set_emitter (EventEmitter.removeAllListeners (emitter c)) c))
  end.

(** Modelled from the spec: a [stop] that resolves has released the handlers
    of the transport (spec 4.1); a [start], and a call that rejects, leave
    the registry as it is. *)
Definition transport_settles (call : TransportCall) (o : Outcome) (w : World) : World :=
  match call, o, signalingClient (this w) with
  | stop, Resolved, Some _ =>
      with_this (set_signalingClient (Some {| handlers := [] |}) (this w)) w
  | _, _, _ => w
  end.

(** A lifecycle call run to its end with nothing else scheduled in between:
    the awaited transport call settles with [o] and the method resumes. *)
Definition settle {A} (o : Outcome) (a : Async A) : Completion A :=
  match a with
  | Done c => c
  | Await call w k => k o (transport_settles call o w)
  end.

(** ** Calls made by the application, and what a trace shows *)

Inductive ApiCall : Set :=
| Subscribe (event : ChatEventId) (listener : ListenerRef)
| Unsubscribe (event : ChatEventId) (listener : ListenerRef)
| Start (o : Outcome).

(** One call run to its end; for [Start o] the transport call it may await
    settles with [o]. *)
Definition perform (c : ApiCall) : M unit :=
  match c with
  | Subscribe k l => on k l
  | Unsubscribe k l => off k l
  | Start o => fun w => settle o (startRealtimeNotifications w)
  end.

(** The calls made one after the other; the application goes on after a
    call that threw. *)
Fixpoint perform_all (cs : list ApiCall) (w : World) : World :=
  match cs with
  | [] => w
  | c :: rest => perform_all rest (world_of (perform c w))
  end.

Definition returns {A} (c : Completion A) : bool :=
  match c with Normal _ _ => true | Thrown _ _ => false end.

Fixpoint all_return (cs : list ApiCall) (w : World) : bool :=
  match cs with
  | [] => true
  | c :: rest => returns (perform c w) && all_return rest (world_of (perform c w))
  end.

(** The listener array of [k] as a sequence of calls leaves it. *)
Definition registration_step (k : ChatEventId) (ls : list ListenerRef) (c : ApiCall)
  : list ListenerRef :=
  match c with
  | Subscribe k' l => if decide (k' = k) then ls ++ [l] else ls
  | Unsubscribe k' l =>
      if decide (k' = k) then default ls (EventEmitter.remove_last l ls) else ls
  | Start _ => ls
  end.

Definition registrations (k : ChatEventId) (cs : list ApiCall) (ls : list ListenerRef)
  : list ListenerRef :=
  foldl (registration_step k) ls cs.

Definition is_throw (a : Action) : bool :=
  match a with Throw _ => true | _ => false end.

(** A listener whose body has no [throw]. *)
Definition never_throws (l : ListenerRef) : bool :=
  forallb (fun a => negb (is_throw a)) (body l).

Definition emissions (t : list Effect) : list (ChatEventId * list Value) :=
  omap (fun e => match e with Emit k args => Some (k, args) | _ => None end) t.

Definition listener_calls (t : list Effect) : list (ListenerRef * list Value) :=
  omap (fun e => match e with Call l args => Some (l, args) | _ => None end) t.

Definition is_transport_start (e : Effect) : bool :=
  match e with TransportStart => true | _ => false end.

Definition transport_starts (t : list Effect) : nat :=
  length (filter (fun e => is_transport_start e) t).

Definition subscriptions_installed (t : list Effect) : list Signaling.EventName :=
  omap (fun e => match e with TransportOn name => Some name | _ => None end) t.

(** The translation table of spec 4.1: the public event, with its arguments,
    that a transport event is published as; [None] where the event is
    dropped. *)
Definition published_as (name : Signaling.EventName) (v : Value)
  : option (ChatEventId * list Value) :=
  match name with
  | Signaling.connectionChanged =>
      match v with
      | VConnectionState Connected => Some (realTimeNotificationConnected, [])
      | VConnectionState Disconnected => Some (realTimeNotificationDisconnected, [])
      | _ => None
      end
  | Signaling.chatMessageReceived => Some (chatMessageReceived, [v])
  | Signaling.chatThreadPropertiesUpdated => Some (chatThreadPropertiesUpdated, [v])
  | Signaling.participantsAdded => Some (participantsAdded, [v])
  | Signaling.participantsRemoved => Some (participantsRemoved, [v])
  end.

(** What [on], [off] and the body of a listener leave alone: the transport,
    the flag and the trace. *)
Definition same_session (w w' : World) : Prop :=
  signalingClient (this w') = signalingClient (this w) /\
  isRealtimeNotificationsStarted (this w') = isRealtimeNotificationsStarted (this w) /\
  trace w' = trace w.

(** A step that adds [t] to the trace and leaves the transport and the flag
    alone. *)
Definition advanced_by (t : list Effect) (w w' : World) : Prop :=
  signalingClient (this w') = signalingClient (this w) /\
  isRealtimeNotificationsStarted (this w') = isRealtimeNotificationsStarted (this w) /\
  trace w' = trace w ++ t.

(** ** The claims of the specification that the code does not meet, as worded *)

(** Spec 4.2: the state becomes Active only after the transport has started
    and the bridge is installed, so a [start] that is still awaited sees the
    flag unset. *)
Definition started_after_transport_start (w : World) : Prop :=
  forall w1 k,
    startRealtimeNotifications w = Await start w1 k ->
    isRealtimeNotificationsStarted (this w1) = false.

(** Spec 4.3 and 7: a listener that throws neither keeps the listeners
    registered with it from being called nor makes the handler of the
    transport event throw. *)
Definition listeners_isolated (name : Signaling.EventName) (v : Value) (w : World)
  : Prop :=
  returns (transport_raises name v w) = true /\
  forall k args l,
    published_as name v = Some (k, args) ->
    l ∈ EventEmitter.listeners k (emitter (this w)) ->
    (l, args) ∈ listener_calls (trace (world_of (transport_raises name v w))).

(** Spec 4.3 and 8: when the transport raises an event that is published as
    [k], exactly the listeners registered under [k] at that time are called,
    each once, in the order of registration, with the arguments of the
    publication. *)
Definition delivered_to_all_registered (name : Signaling.EventName) (v : Value)
    (w : World) : Prop :=
  forall k args,
    published_as name v = Some (k, args) ->
    listener_calls (trace (world_of (transport_raises name v w))) =
    listener_calls (trace w) ++
    map (fun l => (l, args)) (EventEmitter.listeners k (emitter (this w))).

(** Spec 4.3: [off] removes the first registration that matches. *)
Definition off_removes_first (k : ChatEventId) (l : ListenerRef) (w : World) : Prop :=
  EventEmitter.listeners k (emitter (this (world_of (off k l w)))) =
  remove_first l (EventEmitter.listeners k (emitter (this w))).

End Client.

Arguments Value : clear implicits.
Arguments Effect : clear implicits.
Arguments World : clear implicits.
Arguments Completion : clear implicits.
Arguments M : clear implicits.
Arguments Async : clear implicits.

(** ** Sample sessions *)

Module Scenario.

(** Listeners whose bodies do nothing. *)
Definition quiet : ListenerRef -> list Action := fun _ => [].

(** Listener [1] throws; every other listener does nothing. *)
Definition faulty : ListenerRef -> list Action :=
  fun l => if decide (l = 1) then [Throw (Error "listener failed"%string)] else [].

(** Listener [2] takes listener [3] off [participantsAdded] and puts
    listener [4] on it; every other listener does nothing. *)
Definition reentrant : ListenerRef -> list Action :=
  fun l => if decide (l = 2)
           then [CallOff participantsAdded 3; CallOn participantsAdded 4]
           else [].

(** A session in an environment with a transport, started. *)
Definition active : World string :=
  world_of (settle Resolved (startRealtimeNotifications (new_world true))).

(** The end-to-end payload of spec section 8. *)
Definition u1 : Value string := VPayload "{participantIds:[u1]}"%string.

Definition two_listeners : World string :=
  perform_all [Subscribe participantsAdded 1; Subscribe participantsAdded 2] active.

Definition duplicate_listener : World string :=
  perform_all [Subscribe participantsAdded 1; Subscribe participantsAdded 2;
               Subscribe participantsAdded 1] active.

End Scenario.

Arguments Normal {Payload A} a w.
Arguments Thrown {Payload A} e w.
Arguments Done {Payload A} c.
Arguments Await {Payload A} call w k.

(** ** The constructor and its options *)

(** A JavaScript value, as far as an options object holds one; numbers are
    the integral ones. *)
Inductive JsValue : Set :=
| JsUndefined
| JsNull
| JsBoolean (b : bool)
| JsNumber (z : Z)
| JsString (s : string)
| JsObject (ref : nat).

#[global] Instance JsValue_eq_dec : EqDecision JsValue.
Proof. solve_decision. Defined.

(** [ToBoolean]. *)
Definition truthy (v : JsValue) : bool :=
  match v with
  | JsUndefined | JsNull => false
  | JsBoolean b => b
  | JsNumber z => negb (z =? 0)%Z
  | JsString s => match s with EmptyString => false | _ => true end
  | JsObject _ => true
  end.

(** [a || b]. *)
Definition js_or (a b : JsValue) : JsValue := if truthy a then a else b.

(** [o.name]: a property the object does not have reads as [undefined]. *)
Definition get_property (o : gmap string JsValue) (name : string) : JsValue :=
  default JsUndefined (o !! name).

(** The options the constructor keeps and hands to [getSignalingClient]: the
    caller's options spread first, then the two properties written after
    the spread. *)
Definition clientOptions (endpoint : string) (options : gmap string JsValue)
  : gmap string JsValue :=
  <["gatewayApiVersion"%string :=
      js_or (get_property options "gatewayApiVersion"%string)
            (JsString "2024-03-07"%string)]>
    (<["resourceEndpoint"%string := JsString endpoint]> options).

(** ** Runs of a session *)

Section Runs.

Context {Payload : Type}.
Variable body : ListenerRef -> list Action.

(** What can happen to a session: a call of [on], [off] or
    [startRealtimeNotifications], a call of [stopRealtimeNotifications]
    whose transport call settles with [o], and an event raised by the
    transport. *)
Inductive Step : Type :=
| Request (c : ApiCall)
| Stop (o : Outcome)
| Raised (name : Signaling.EventName) (v : Value Payload).

Definition step (s : Step) : M Payload unit :=
  match s with
  | Request c => perform c
  | Stop o => fun w => settle o (stopRealtimeNotifications w)
  | Raised name v => transport_raises body name v
  end.

(** The steps taken one after the other, each run to its end; a step that
    throws does not end the run. *)
Fixpoint run (ss : list Step) (w : World Payload) : World Payload :=
  match ss with
  | [] => w
  | s :: rest => run rest (world_of (step s w))
  end.

Definition is_stop (s : Step) : bool :=
  match s with Stop _ => true | _ => false end.

(** The implicit claim about a [start] that rejected, as worded: whatever
    happens to the session afterwards, a further
    [startRealtimeNotifications] returns at once, and no event raised by the
    transport is delivered to a listener. *)
Definition rejected_start_is_final (w : World Payload) : Prop :=
  forall ss,
    startRealtimeNotifications (run ss w) = Done (Normal tt (run ss w)) /\
    forall name v,
      listener_calls (trace (world_of (transport_raises body name v (run ss w)))) =
      listener_calls (trace (run ss w)).

(** The trace entries made while an event is delivered. *)
Definition is_delivery (e : Effect Payload) : bool :=
  match e with Emit _ _ | Call _ _ => true | _ => false end.

(** While the transport's [start] has never been called, the flag is unset
    and no listener is registered for a domain event. *)
Definition guarded (w : World Payload) : Prop :=
  transport_starts (trace w) = 0 ->
  isRealtimeNotificationsStarted (this w) = false /\
  forall k, is_domain_event k = true ->
            EventEmitter.listeners k (emitter (this w)) = [].

(** How often a listener is called in a trace, and how often it occurs in a
    listener array. *)
Definition times_called (l : ListenerRef) (t : list (Effect Payload)) : nat :=
  length (filter (fun c => c.1 = l) (listener_calls t)).

Definition times_registered (l : ListenerRef) (ls : list ListenerRef) : nat :=
  length (filter (fun x => x = l) ls).

End Runs.

(** ** The readme snippet that prints the text of the language spans *)

Module DocumentSpan.
(** [DocumentSpan]: a region of the content, in UTF-16 code units. *)
Record t : Set := { offset : Z; length : Z }.
End DocumentSpan.

Module Snippets.

(** A string is its sequence of UTF-16 code units. *)
Abbreviation text := (list N).

Definition LF : N := 10.
Definition CR : N := 13.
Definition QUOTE : N := 34.
Definition BACKSLASH : N := 92.
Definition LOWER_N : N := 110.

(** [s.slice(from, to)]: an index below zero counts from the end, both
    indices are clamped to the string, and an empty range gives the empty
    string. *)
Definition slice {A} (s : list A) (from to : Z) : list A :=
  let len := Z.of_nat (List.length s) in
  let first := if (from <? 0)%Z then Z.max (len + from) 0 else Z.min from len in
  let final := if (to <? 0)%Z then Z.max (len + to) 0 else Z.min to len in
  take (Z.to_nat (final - first)) (drop (Z.to_nat first) s).

(** The generator, as the sequence of the strings it yields. *)
Definition getTextOfSpans (content : text) (spans : list DocumentSpan.t) : list text :=
  map (fun span =>
         slice content (DocumentSpan.offset span)
           (DocumentSpan.offset span + DocumentSpan.length span)%Z)
      spans.

(** [replace(/\r?\n/g, ...)] with a backslash and the letter n: the string is
    scanned from the left, a line feed, alone or with the carriage return
    before it, is replaced, every other code unit is copied. *)
Fixpoint replace_newlines (s : text) : text :=
  match s with
  | [] => []
  | c :: rest =>
      if decide (c = LF) then BACKSLASH :: LOWER_N :: replace_newlines rest
      else
        match rest with
        | d :: rest' =>
            if decide (c = CR /\ d = LF)
            then BACKSLASH :: LOWER_N :: replace_newlines rest'
            else c :: replace_newlines rest
        | [] => [c]
        end
  end.

(** The second [replace], of every quotation mark by a backslash and the
    quotation mark. *)
Definition replace_quotes (s : text) : text :=
  flat_map (fun c => if decide (c = QUOTE) then [BACKSLASH; QUOTE] else [c]) s.

Definition escapedText (t : text) : text := replace_quotes (replace_newlines t).

(** Spans that follow one another without gap or overlap from [from] up to
    [to]. *)
Fixpoint contiguous (from : Z) (spans : list DocumentSpan.t) (to : Z) : Prop :=
  match spans with
  | [] => from = to
  | span :: rest =>
      DocumentSpan.offset span = from /\
      (0 <= DocumentSpan.length span)%Z /\
      contiguous (from + DocumentSpan.length span) rest to
  end.

(** Every quotation mark of [s] has a backslash right before it. *)
Definition quotes_follow_backslash (s : text) : Prop :=
  forall before after,
    s = before ++ QUOTE :: after -> exists before', before = before' ++ [BACKSLASH].

End Snippets.

(** Samples of the options and of a document. *)
Module Samples.

Definition options : gmap string JsValue :=
  {[ "gatewayApiVersion"%string := JsString ""%string;
     "resourceEndpoint"%string := JsString "https://other"%string;
     "registrationTimeInMs"%string := JsNumber 5000 ]}.

(** The content [ab LF c] and two spans that cover it. *)
Definition content : Snippets.text := [97; 98; 10; 99]%N.
Definition spans : list DocumentSpan.t :=
  [ {| DocumentSpan.offset := 0; DocumentSpan.length := 3 |};
    {| DocumentSpan.offset := 3; DocumentSpan.length := 1 |} ].

(** Listener [5] takes itself off [participantsAdded] when called. *)
Definition once : ListenerRef -> list Action :=
  fun l => if decide (l = 5) then [CallOff participantsAdded 5] else [].

End Samples.

(** * Properties *)

(** ** The listener arrays of the emitter *)

Section EmitterFacts.

Implicit Types (k : ChatEventId) (l : ListenerRef) (ls : list ListenerRef).
Implicit Types (em : gmap ChatEventId (list ListenerRef)).

Lemma listeners_on k l em :
  EventEmitter.listeners k (EventEmitter.on k l em) = EventEmitter.listeners k em ++ [l].
Proof.
  unfold EventEmitter.on, EventEmitter.listeners at 1.
  by rewrite lookup_insert_eq.
Qed.

Lemma listeners_on_ne k k' l em :
  k' ≠ k ->
  EventEmitter.listeners k' (EventEmitter.on k l em) = EventEmitter.listeners k' em.
Proof.
  intros Hne. unfold EventEmitter.on, EventEmitter.listeners at 1 3.
  by rewrite lookup_insert_ne.
Qed.

Lemma remove_last_absent l ls : l ∉ ls -> EventEmitter.remove_last l ls = None.
Proof.
  induction ls as [|x rest IH]; intros Hnot; simpl; [done|].
  apply not_elem_of_cons in Hnot as [Hne Hrest].
  rewrite (IH Hrest). by rewrite decide_False.
Qed.

Lemma remove_last_found l ls :
  l ∈ ls -> exists ls', EventEmitter.remove_last l ls = Some ls'.
Proof.
  induction ls as [|x rest IH]; intros Hin; simpl.
  - by apply elem_of_nil in Hin.
  - destruct (EventEmitter.remove_last l rest) as [rest'|] eqn:Hrest; [eauto|].
    destruct (decide (x = l)) as [->|Hne]; [eauto|].
    apply elem_of_cons in Hin as [->|Hin]; [done|].
    destruct (IH Hin) as [? ?]. congruence.
Qed.

(** The instance that goes is the last one: everything before it and
    everything after it stays, in order. *)
Lemma remove_last_split l pre post :
  l ∉ post -> EventEmitter.remove_last l (pre ++ l :: post) = Some (pre ++ post).
Proof.
  intros Hpost. induction pre as [|x pre IH]; simpl.
  - rewrite (remove_last_absent _ _ Hpost). by rewrite decide_True.
  - by rewrite IH.
Qed.

Lemma listeners_removeListener k l em :
  EventEmitter.listeners k (EventEmitter.removeListener k l em) =
  default (EventEmitter.listeners k em)
          (EventEmitter.remove_last l (EventEmitter.listeners k em)).
Proof.
  unfold EventEmitter.removeListener, EventEmitter.listeners.
  destruct (em !! k) as [ls|] eqn:Hk; simpl.
  - destruct (EventEmitter.remove_last l ls) as [[|x ls']|] eqn:Hrm; simpl.
    + by rewrite lookup_delete_eq.
    + by rewrite lookup_insert_eq.
    + by rewrite Hk.
  - by rewrite Hk.
Qed.

Lemma listeners_removeListener_ne k k' l em :
  k' ≠ k ->
  EventEmitter.listeners k' (EventEmitter.removeListener k l em) =
  EventEmitter.listeners k' em.
Proof.
  intros Hne. unfold EventEmitter.removeListener, EventEmitter.listeners.
  destruct (em !! k) as [ls|] eqn:Hk; [|done].
  destruct (EventEmitter.remove_last l ls) as [[|x ls']|]; [| |done].
  - by rewrite lookup_delete_ne.
  - by rewrite lookup_insert_ne.
Qed.

Lemma removeListener_absent k l em :
  l ∉ EventEmitter.listeners k em -> EventEmitter.removeListener k l em = em.
Proof.
  unfold EventEmitter.removeListener, EventEmitter.listeners.
  destruct (em !! k) as [ls|] eqn:Hk; simpl; [|done].
  intros Hnot. by rewrite (remove_last_absent _ _ Hnot).
Qed.

End EmitterFacts.

(** ** [on] and [off] *)

Section Facade.

Context {Payload : Type}.
Implicit Types (w : World Payload) (c : ConversationMessagesClient).
Implicit Types (k : ChatEventId) (l : ListenerRef).

Lemma same_session_refl w : same_session w w.
Proof. by repeat split. Qed.

Lemma same_session_trans w1 w2 w3 :
  same_session w1 w2 -> same_session w2 w3 -> same_session w1 w3.
Proof. intros (?&?&?) (?&?&?). repeat split; congruence. Qed.

Lemma with_this_id w : with_this (set_emitter (emitter (this w)) (this w)) w = w.
Proof. by destruct w as [[] ?]. Qed.

Lemma on_unsupported k l w :
  signalingClient (this w) = None -> on k l w = Thrown only_supported_in_browser w.
Proof. intros H. unfold on, bind, get_this, throw. by rewrite H. Qed.

Lemma off_unsupported k l w :
  signalingClient (this w) = None -> off k l w = Thrown only_supported_in_browser w.
Proof. intros H. unfold off, bind, get_this, throw. by rewrite H. Qed.

Lemma on_before_start k l w sc :
  signalingClient (this w) = Some sc ->
  isRealtimeNotificationsStarted (this w) = false ->
  is_domain_event k = true ->
  on k l w = Thrown must_start_first w.
Proof.
  intros Hsc Hidle Hk. unfold on, bind, get_this, throw. rewrite Hsc, Hidle.
  by destruct k.
Qed.

Lemma on_registers k l w sc :
  signalingClient (this w) = Some sc ->
  isRealtimeNotificationsStarted (this w) = true \/ is_lifecycle_signal k = true ->
  on k l w =
  Normal tt (with_this (set_emitter (EventEmitter.on k l (emitter (this w))) (this w)) w).
Proof.
  intros Hsc Hok. unfold on, bind, get_this, set_this. rewrite Hsc.
  destruct Hok as [-> | Hk]; [done|].
  destruct k; try discriminate Hk; by rewrite andb_false_r || by destruct (negb _).
Qed.

Lemma off_unregisters k l w sc :
  signalingClient (this w) = Some sc ->
  off k l w =
  Normal tt
    (with_this (set_emitter (EventEmitter.removeListener k l (emitter (this w))) (this w)) w).
Proof. intros Hsc. unfold off, bind, get_this, set_this. by rewrite Hsc. Qed.

Lemma on_same_session k l w : same_session w (world_of (on k l w)).
Proof.
  unfold on, bind, get_this, throw, set_this.
  destruct (signalingClient (this w)); simpl; [|apply same_session_refl].
  destruct (_ && _); simpl; by repeat split.
Qed.

Lemma off_same_session k l w : same_session w (world_of (off k l w)).
Proof.
  unfold off, bind, get_this, throw, set_this.
  destruct (signalingClient (this w)); simpl; by repeat split.
Qed.

End Facade.

Section FacadeClaims.

Context {Payload : Type}.
Implicit Types (w : World Payload) (k : ChatEventId) (l : ListenerRef).

(** C3. With a transport present: [on] for one of the four domain events
    while the flag is unset throws the precondition error and leaves the
    session as it was, so nothing is registered; [on] for one of the two
    lifecycle signals returns in every state, the flag set or not, and the
    listener is appended to the array of that event, all else untouched. *)
Theorem on_guards_domain_events_only w sc k l :
  signalingClient (this w) = Some sc ->
  (is_domain_event k = true ->
   isRealtimeNotificationsStarted (this w) = false ->
   exists e, on k l w = Thrown e w /\ PreconditionError e) /\
  (is_lifecycle_signal k = true ->
   exists w',
     on k l w = Normal tt w' /\
     EventEmitter.listeners k (emitter (this w')) =
       EventEmitter.listeners k (emitter (this w)) ++ [l] /\
     (forall k', k' ≠ k ->
        EventEmitter.listeners k' (emitter (this w')) =
        EventEmitter.listeners k' (emitter (this w))) /\
     same_session w w').
Proof.
  intros Hsc. split.
  - intros Hk Hidle. exists must_start_first. split; [|reflexivity].
    by apply (on_before_start k l w sc).
  - intros Hk. eexists. split.
    + apply (on_registers k l w sc); auto.
    + simpl. split; [apply listeners_on|].
      split; [intros k' Hne; by apply listeners_on_ne|].
      by repeat split.
Qed.

(** C8. Without a transport, each of the four public operations throws a
    capability error, whatever the event, the listener and the state, and
    the session, its emitter and its trace are as before the call; the two
    asynchronous ones throw before they await anything. *)
Theorem no_transport_no_operation w :
  signalingClient (this w) = None ->
  (exists e, startRealtimeNotifications w = Done (Thrown e w) /\ CapabilityError e) /\
  (exists e, stopRealtimeNotifications w = Done (Thrown e w) /\ CapabilityError e) /\
  (forall k l, exists e, on k l w = Thrown e w /\ CapabilityError e) /\
  (forall k l, exists e, off k l w = Thrown e w /\ CapabilityError e).
Proof.
  intros Hnone. repeat split.
  - exists not_supported_in_node. split; [|by left].
    unfold startRealtimeNotifications. by rewrite Hnone.
  - exists not_supported_in_node. split; [|by left].
    unfold stopRealtimeNotifications. by rewrite Hnone.
  - intros k l. exists only_supported_in_browser. split; [|by right].
    by apply on_unsupported.
  - intros k l. exists only_supported_in_browser. split; [|by right].
    by apply off_unsupported.
Qed.

(** C9, as the code has it. With a transport present, [off] returns in every
    state. It takes out the registration of the listener that was added
    last under that event, and leaves every other registration, the earlier
    registrations of the same listener among them, in place and in order;
    the arrays of the other events, the transport, the flag and the trace
    are untouched. For a listener that is not registered under the event
    the session is left exactly as it was. *)
Theorem off_removes_latest_registration w sc k l :
  signalingClient (this w) = Some sc ->
  exists w',
    off k l w = Normal tt w' /\
    same_session w w' /\
    (forall k', k' ≠ k ->
       EventEmitter.listeners k' (emitter (this w')) =
       EventEmitter.listeners k' (emitter (this w))) /\
    (forall pre post,
       EventEmitter.listeners k (emitter (this w)) = pre ++ l :: post ->
       l ∉ post ->
       EventEmitter.listeners k (emitter (this w')) = pre ++ post) /\
    (l ∉ EventEmitter.listeners k (emitter (this w)) -> w' = w).
Proof.
  intros Hsc. eexists. split; [by apply (off_unregisters k l w sc)|].
  simpl. split; [by repeat split|].
  split; [intros k' Hne; by apply listeners_removeListener_ne|].
  split.
  - intros pre post Hls Hpost.
    rewrite listeners_removeListener, Hls.
    by rewrite (remove_last_split _ _ _ Hpost).
  - intros Hnot. rewrite (removeListener_absent _ _ _ Hnot).
    apply with_this_id.
Qed.

End FacadeClaims.

(** C3 at a new session with a transport. *)
Lemma on_guards_domain_events_only_witness :
  (exists e, on chatMessageReceived 7 (@new_world string true)
             = Thrown e (new_world true) /\ PreconditionError e) /\
  (exists w', on realTimeNotificationConnected 7 (@new_world string true)
              = Normal tt w' /\
              EventEmitter.listeners realTimeNotificationConnected (emitter (this w')) = [7]).
Proof.
  destruct (on_guards_domain_events_only (@new_world string true)
              {| handlers := [] |} chatMessageReceived 7 eq_refl) as [Hdom _].
  destruct (on_guards_domain_events_only (@new_world string true)
              {| handlers := [] |} realTimeNotificationConnected 7 eq_refl) as [_ Hlife].
  split.
  - apply Hdom; reflexivity.
  - destruct (Hlife eq_refl) as (w' & Hon & Hls & _). exists w'. split; [exact Hon|].
    rewrite Hls. reflexivity.
Defined.

(** C8 at a new session without a transport. *)
Lemma no_transport_no_operation_witness :
  exists e, on participantsAdded 7 (@new_world string false)
            = Thrown e (new_world false) /\ CapabilityError e.
Proof.
  destruct (no_transport_no_operation (@new_world string false) eq_refl)
    as (_ & _ & Hon & _).
  apply Hon.
Defined.

(** C9 at a session where listener [1] is registered twice around [2]. *)
Lemma off_removes_latest_registration_witness :
  EventEmitter.listeners participantsAdded
    (emitter (this (world_of (off participantsAdded 1 Scenario.duplicate_listener)))) = [1; 2].
Proof.
  destruct (off_removes_latest_registration Scenario.duplicate_listener
              {| handlers := bridge_handlers |} participantsAdded 1 eq_refl)
    as (w' & Hoff & _ & _ & Hlast & _).
  rewrite Hoff. simpl.
  apply (Hlast [1; 2] []); [reflexivity|].
  apply not_elem_of_nil.
Defined.

(** C9 as worded fails: of two registrations of one listener, [off] takes
    out the later one, not the first. *)
Lemma off_keeps_first_registration :
  EventEmitter.listeners participantsAdded (emitter (this Scenario.duplicate_listener))
    = [1; 2; 1] /\
  EventEmitter.listeners participantsAdded
    (emitter (this (world_of (off participantsAdded 1 Scenario.duplicate_listener))))
    = [1; 2] /\
  remove_first 1 [1; 2; 1] = [2; 1] /\
  ~ off_removes_first participantsAdded 1 Scenario.duplicate_listener.
Proof.
  split; [reflexivity|]. split; [reflexivity|]. split; [reflexivity|].
  unfold off_removes_first. vm_compute. discriminate.
Qed.

(** ** The lifecycle *)

Section Lifecycle.

Context {Payload : Type}.
Implicit Types (w : World Payload) (k : ChatEventId) (l : ListenerRef).
Implicit Types (sc : SignalingClient) (o : Outcome).

(** One run of the bridge installation: five registrations at the end of
    the registry of the transport, five entries in the trace, in the order
    of the source. *)
Lemma subscribeToSignalingEvents_installs w sc :
  signalingClient (this w) = Some sc ->
  subscribeToSignalingEvents w =
  Normal tt
    {| this := set_signalingClient
                 (Some {| handlers := handlers sc ++ bridge_handlers |}) (this w);
       trace := trace w ++ map TransportOn bridge_handlers.*1 |}.
Proof.
  destruct w as [[tr em b] t]. simpl. intros ->.
  unfold subscribeToSignalingEvents, signalingClient_on, bind, get_this, set_this, log,
    record, with_this, set_signalingClient.
  simpl. rewrite <- !app_assoc. reflexivity.
Qed.

Lemma start_when_started w sc :
  signalingClient (this w) = Some sc ->
  isRealtimeNotificationsStarted (this w) = true ->
  startRealtimeNotifications w = Done (Normal tt w).
Proof.
  intros Hsc Hon. unfold startRealtimeNotifications. by rewrite Hsc, Hon.
Qed.

Lemma start_when_idle w sc :
  signalingClient (this w) = Some sc ->
  isRealtimeNotificationsStarted (this w) = false ->
  startRealtimeNotifications w =
  Await start (record TransportStart (with_this (set_started true (this w)) w))
    (fun o => bind (resume o) (fun _ => subscribeToSignalingEvents)).
Proof.
  intros Hsc Hidle. unfold startRealtimeNotifications. by rewrite Hsc, Hidle.
Qed.

Lemma start_resolved w sc :
  signalingClient (this w) = Some sc ->
  isRealtimeNotificationsStarted (this w) = false ->
  settle Resolved (startRealtimeNotifications w) =
  Normal tt
    {| this := {| signalingClient := Some {| handlers := handlers sc ++ bridge_handlers |};
                  emitter := emitter (this w);
                  isRealtimeNotificationsStarted := true |};
       trace := trace w ++ TransportStart :: map TransportOn bridge_handlers.*1 |}.
Proof.
  intros Hsc Hidle. rewrite (start_when_idle w sc Hsc Hidle).
  unfold settle, transport_settles, bind, resume, ret.
  erewrite subscribeToSignalingEvents_installs by (simpl; exact Hsc).
  simpl. by rewrite <- app_assoc.
Qed.

Lemma start_rejected w sc e :
  signalingClient (this w) = Some sc ->
  isRealtimeNotificationsStarted (this w) = false ->
  settle (Rejected e) (startRealtimeNotifications w) =
  Thrown e (record TransportStart (with_this (set_started true (this w)) w)).
Proof.
  intros Hsc Hidle. rewrite (start_when_idle w sc Hsc Hidle).
  unfold settle, transport_settles, bind, resume, throw. simpl.
  by destruct (signalingClient (this w)).
Qed.

(** C1, as the code has it. On a session with a transport and the flag
    unset, [startRealtimeNotifications] first sets the flag, then calls the
    transport's [start] and suspends: at the [await] the flag is already
    set, the call is in the trace and the registry of the transport is as it
    was. When the call resolves the method installs the five bridge
    subscriptions and returns; the flag is still set and the emitter is
    untouched. *)
Theorem start_sets_flag_then_starts_then_bridges w sc :
  signalingClient (this w) = Some sc ->
  isRealtimeNotificationsStarted (this w) = false ->
  exists w1 resumption w2,
    startRealtimeNotifications w = Await start w1 resumption /\
    isRealtimeNotificationsStarted (this w1) = true /\
    signalingClient (this w1) = Some sc /\
    trace w1 = trace w ++ [TransportStart] /\
    settle Resolved (startRealtimeNotifications w) = Normal tt w2 /\
    isRealtimeNotificationsStarted (this w2) = true /\
    signalingClient (this w2) = Some {| handlers := handlers sc ++ bridge_handlers |} /\
    emitter (this w2) = emitter (this w) /\
    trace w2 = trace w1 ++ map TransportOn bridge_handlers.*1.
Proof.
  intros Hsc Hidle. do 3 eexists.
  split; [exact (start_when_idle w sc Hsc Hidle)|].
  split; [reflexivity|]. split; [exact Hsc|]. split; [reflexivity|].
  split; [exact (start_resolved w sc Hsc Hidle)|].
  simpl. repeat split. by rewrite <- app_assoc.
Qed.

(** C4. On a session with a transport, two [startRealtimeNotifications] in
    a row: the second returns at once, without awaiting anything, and leaves
    the session exactly as the first left it, whatever the state before and
    however the transport call of the first settled. From the unset flag,
    with the first transport call resolving, the two calls together call
    the transport's [start] once and install each of the five bridge
    subscriptions once. *)
Theorem start_twice_sets_up_once w sc o1 :
  signalingClient (this w) = Some sc ->
  let w1 := world_of (settle o1 (startRealtimeNotifications w)) in
  startRealtimeNotifications w1 = Done (Normal tt w1) /\
  (forall o2, perform_all [Start o1; Start o2] w = w1) /\
  (isRealtimeNotificationsStarted (this w) = false ->
   o1 = Resolved ->
   settle o1 (startRealtimeNotifications w) = Normal tt w1 /\
   transport_starts (trace w1) = transport_starts (trace w) + 1 /\
   subscriptions_installed (trace w1) =
     subscriptions_installed (trace w) ++ bridge_handlers.*1 /\
   signalingClient (this w1) = Some {| handlers := handlers sc ++ bridge_handlers |}).
Proof.
  intros Hsc w1.
  assert (startRealtimeNotifications w1 = Done (Normal tt w1)) as Hsecond.
  { subst w1. destruct (isRealtimeNotificationsStarted (this w)) eqn:Hflag.
    - rewrite (start_when_started w sc Hsc Hflag). simpl.
      exact (start_when_started w sc Hsc Hflag).
    - destruct o1 as [|e].
      + rewrite (start_resolved w sc Hsc Hflag). by eapply start_when_started.
      + rewrite (start_rejected w sc e Hsc Hflag). by eapply start_when_started. }
  split; [exact Hsecond|]. split.
  - intros o2. cbn [perform_all perform]. fold w1. by rewrite Hsecond.
  - intros Hidle ->. subst w1. rewrite (start_resolved w sc Hsc Hidle).
    split; [reflexivity|]. simpl. unfold transport_starts, subscriptions_installed.
    rewrite filter_app, length_app, omap_app. simpl.
    split; [reflexivity|]. split; reflexivity.
Qed.

Lemma stop_resolved w sc :
  signalingClient (this w) = Some sc ->
  settle Resolved (stopRealtimeNotifications w) =
  Normal tt
    {| this := {| signalingClient := Some {| handlers := [] |};
                  emitter := ∅;
                  isRealtimeNotificationsStarted := false |};
       trace := trace w ++ [TransportStop] |}.
Proof.
  intros Hsc. unfold stopRealtimeNotifications. rewrite Hsc.
  unfold settle, transport_settles, bind, resume, ret, get_this, set_this. simpl.
  by rewrite Hsc.
Qed.

Lemma listeners_empty k : EventEmitter.listeners k ∅ = [].
Proof. unfold EventEmitter.listeners. by rewrite lookup_empty. Qed.

End Lifecycle.

(** ** Delivery *)

Section Delivery.

Context {Payload : Type}.
Variable body : ListenerRef -> list Action.

Implicit Types (w : World Payload) (k : ChatEventId) (l : ListenerRef).
Implicit Types (ls : list ListenerRef) (args : list (Value Payload)).
Implicit Types (sc : SignalingClient) (acts : list Action).

Lemma run_action_same_session a w : same_session w (world_of (run_action a w)).
Proof.
  destruct a; simpl.
  - apply on_same_session.
  - apply off_same_session.
  - apply same_session_refl.
Qed.

Lemma run_body_same_session acts w : same_session w (world_of (run_body acts w)).
Proof.
  revert w. induction acts as [|a rest IH]; intros w; simpl.
  - apply same_session_refl.
  - unfold bind. pose proof (run_action_same_session a w) as Ha.
    destruct (run_action a w) as [[] w'|e w']; simpl in *; [|exact Ha].
    eapply same_session_trans; [exact Ha|apply IH].
Qed.

(** With a transport and the flag set, neither [on] nor [off] throws. *)
Lemma run_action_returns a w sc :
  signalingClient (this w) = Some sc ->
  isRealtimeNotificationsStarted (this w) = true ->
  is_throw a = false ->
  exists w', run_action a w = Normal tt w'.
Proof.
  intros Hsc Hon Ha. destruct a as [k l|k l|e]; simpl in *; [| |discriminate].
  - eexists. apply (on_registers k l w sc); auto.
  - eexists. apply (off_unregisters k l w sc); auto.
Qed.

Lemma run_body_returns acts w sc :
  signalingClient (this w) = Some sc ->
  isRealtimeNotificationsStarted (this w) = true ->
  forallb (fun a => negb (is_throw a)) acts = true ->
  exists w', run_body acts w = Normal tt w' /\ same_session w w'.
Proof.
  revert w. induction acts as [|a rest IH]; intros w Hsc Hon Hacts; simpl in *.
  - exists w. split; [reflexivity|apply same_session_refl].
  - apply andb_true_iff in Hacts as [Ha Hrest]. apply negb_true_iff in Ha.
    destruct (run_action_returns a w sc Hsc Hon Ha) as [w1 H1].
    pose proof (run_action_same_session a w) as Hs1. rewrite H1 in Hs1. simpl in Hs1.
    destruct Hs1 as (Hsc1 & Hon1 & Ht1).
    destruct (IH w1) as (w2 & H2 & Hs2); [congruence|congruence|exact Hrest|].
    exists w2. unfold bind. rewrite H1. split; [exact H2|].
    eapply same_session_trans; [|exact Hs2]. by repeat split.
Qed.

(** A body that reaches a [throw] ends there. *)
Lemma run_body_throws acts e rest w sc :
  signalingClient (this w) = Some sc ->
  isRealtimeNotificationsStarted (this w) = true ->
  forallb (fun a => negb (is_throw a)) acts = true ->
  exists w', run_body (acts ++ Throw e :: rest) w = Thrown e w' /\ same_session w w'.
Proof.
  revert w. induction acts as [|a acts IH]; intros w Hsc Hon Hacts; simpl in *.
  - exists w. split; [reflexivity|apply same_session_refl].
  - apply andb_true_iff in Hacts as [Ha Hrest]. apply negb_true_iff in Ha.
    destruct (run_action_returns a w sc Hsc Hon Ha) as [w1 H1].
    pose proof (run_action_same_session a w) as Hs1. rewrite H1 in Hs1. simpl in Hs1.
    destruct Hs1 as (Hsc1 & Hon1 & Ht1).
    destruct (IH w1) as (w2 & H2 & Hs2); [congruence|congruence|exact Hrest|].
    exists w2. unfold bind. rewrite H1. split; [exact H2|].
    eapply same_session_trans; [|exact Hs2]. by repeat split.
Qed.

Lemma advanced_by_trans t1 t2 w1 w2 w3 :
  advanced_by t1 w1 w2 -> advanced_by t2 w2 w3 -> advanced_by (t1 ++ t2) w1 w3.
Proof.
  intros (?&?&Ht1) (?&?&Ht2). repeat split; try congruence.
  rewrite Ht2, Ht1. by rewrite <- app_assoc.
Qed.

(** A call of a listener puts one entry in the trace, whatever its body
    does. *)
Lemma call_advances args l w :
  advanced_by [Call l args] w (world_of (call body args l w)).
Proof.
  unfold call, bind, log.
  pose proof (run_body_same_session (body l) (record (Call l args) w)) as (Hsc & Hon & Ht).
  destruct (run_body (body l) (record (Call l args) w)) as [[] w'|e w']; simpl in *;
    by repeat split.
Qed.

Lemma call_returns args l w sc :
  signalingClient (this w) = Some sc ->
  isRealtimeNotificationsStarted (this w) = true ->
  never_throws body l = true ->
  exists w', call body args l w = Normal tt w'.
Proof.
  intros Hsc Hon Hl. unfold call, bind, log.
  destruct (run_body_returns (body l) (record (Call l args) w) sc) as (w' & H & _); auto.
  exists w'. by rewrite H.
Qed.

Lemma call_throws args l w sc acts e rest :
  signalingClient (this w) = Some sc ->
  isRealtimeNotificationsStarted (this w) = true ->
  body l = acts ++ Throw e :: rest ->
  forallb (fun a => negb (is_throw a)) acts = true ->
  exists w', call body args l w = Thrown e w'.
Proof.
  intros Hsc Hon Hl Hacts. unfold call, bind, log. rewrite Hl.
  destruct (run_body_throws acts e rest (record (Call l args) w) sc) as (w' & H & _); auto.
  exists w'. by rewrite H.
Qed.

(** The calls made by [call_each] are a prefix of the array it was given. *)
Lemma call_each_advances ls args w :
  exists n,
    advanced_by (map (fun l => Call l args) (take n ls)) w
      (world_of (call_each body ls args w)).
Proof.
  revert w. induction ls as [|l rest IH]; intros w; simpl.
  - exists 0. simpl. repeat split. by rewrite app_nil_r.
  - unfold bind. pose proof (call_advances args l w) as Hl.
    destruct (call body args l w) as [[] w'|e w']; simpl in Hl.
    + destruct (IH w') as [n Hn]. exists (S n). simpl.
      exact (advanced_by_trans [_] _ _ _ _ Hl Hn).
    + exists 1. simpl. exact Hl.
Qed.

Lemma call_each_returns ls args w sc :
  signalingClient (this w) = Some sc ->
  isRealtimeNotificationsStarted (this w) = true ->
  (forall l, l ∈ ls -> never_throws body l = true) ->
  exists w',
    call_each body ls args w = Normal tt w' /\
    advanced_by (map (fun l => Call l args) ls) w w'.
Proof.
  revert w. induction ls as [|l rest IH]; intros w Hsc Hon Hls; simpl.
  - exists w. split; [reflexivity|]. repeat split. by rewrite app_nil_r.
  - destruct (call_returns args l w sc Hsc Hon) as [w1 H1].
    { apply Hls. by left. }
    pose proof (call_advances args l w) as Ha. rewrite H1 in Ha. simpl in Ha.
    destruct Ha as (Hsc1 & Hon1 & Ht1).
    destruct (IH w1) as (w2 & H2 & Ha2); [congruence|congruence| |].
    { intros x Hx. apply Hls. by right. }
    exists w2. unfold bind. rewrite H1. split; [exact H2|].
    exact (advanced_by_trans [_] _ _ _ _ (conj Hsc1 (conj Hon1 Ht1)) Ha2).
Qed.

(** The first listener that throws ends the round: it is the last one
    called. *)
Lemma call_each_throws pre l post args w sc acts e rest :
  signalingClient (this w) = Some sc ->
  isRealtimeNotificationsStarted (this w) = true ->
  (forall x, x ∈ pre -> never_throws body x = true) ->
  body l = acts ++ Throw e :: rest ->
  forallb (fun a => negb (is_throw a)) acts = true ->
  exists w',
    call_each body (pre ++ l :: post) args w = Thrown e w' /\
    advanced_by (map (fun x => Call x args) (pre ++ [l])) w w'.
Proof.
  revert w. induction pre as [|x pre IH]; intros w Hsc Hon Hpre Hl Hacts; simpl.
  - destruct (call_throws args l w sc acts e rest Hsc Hon Hl Hacts) as [w1 H1].
    pose proof (call_advances args l w) as Ha. rewrite H1 in Ha. simpl in Ha.
    exists w1. unfold bind. by rewrite H1.
  - destruct (call_returns args x w sc Hsc Hon) as [w1 H1].
    { apply Hpre. by left. }
    pose proof (call_advances args x w) as Ha. rewrite H1 in Ha. simpl in Ha.
    destruct Ha as (Hsc1 & Hon1 & Ht1).
    destruct (IH w1) as (w2 & H2 & Ha2); [congruence|congruence| |exact Hl|exact Hacts|].
    { intros y Hy. apply Hpre. by right. }
    exists w2. unfold bind. rewrite H1. split; [exact H2|].
    exact (advanced_by_trans [_] _ _ _ _ (conj Hsc1 (conj Hon1 Ht1)) Ha2).
Qed.

End Delivery.

Section Publishing.

Context {Payload : Type}.
Variable body : ListenerRef -> list Action.

Implicit Types (w : World Payload) (k : ChatEventId) (l : ListenerRef).
Implicit Types (ls : list ListenerRef) (args : list (Value Payload)) (v : Value Payload).
Implicit Types (sc : SignalingClient) (acts : list Action).

Lemma emit_no_listener k args w :
  emitter (this w) !! k = None ->
  emit body k args w = Normal false (record (Emit k args) w).
Proof. intros Hk. unfold emit, bind, log, get_this, ret. simpl. by rewrite Hk. Qed.

Lemma listeners_cons_lookup k (em : gmap ChatEventId (list ListenerRef)) x ls :
  EventEmitter.listeners k em = x :: ls -> em !! k = Some (x :: ls).
Proof. unfold EventEmitter.listeners. destruct (em !! k); simpl; intros H; by simplify_eq. Qed.

(** [emit] puts itself in the trace and then calls a prefix of the array
    registered under the event; it touches neither the transport nor the
    flag. *)
Lemma emit_advances k args w :
  exists n,
    advanced_by (Emit k args ::
                 map (fun l => Call l args) (take n (EventEmitter.listeners k (emitter (this w)))))
      w (world_of (emit body k args w)).
Proof.
  unfold emit, bind, log, get_this, ret, EventEmitter.listeners. simpl.
  destruct (emitter (this w) !! k) as [ls|]; simpl.
  - destruct (call_each_advances body ls args (record (Emit k args) w)) as [n Hn].
    exists n.
    assert (advanced_by [Emit k args] w (record (Emit k args) w)) as H0 by by repeat split.
    pose proof (advanced_by_trans _ _ _ _ _ H0 Hn) as H.
    by destruct (call_each body ls args (record (Emit k args) w)) as [[] w'|e w'].
  - exists 0. by repeat split.
Qed.

Lemma emit_returns k args w sc :
  signalingClient (this w) = Some sc ->
  isRealtimeNotificationsStarted (this w) = true ->
  (forall l, l ∈ EventEmitter.listeners k (emitter (this w)) -> never_throws body l = true) ->
  exists b w',
    emit body k args w = Normal b w' /\
    advanced_by (Emit k args ::
                 map (fun l => Call l args) (EventEmitter.listeners k (emitter (this w))))
      w w'.
Proof.
  intros Hsc Hon Hls.
  unfold emit, bind, log, get_this, ret. simpl.
  unfold EventEmitter.listeners in *.
  destruct (emitter (this w) !! k) as [ls|]; simpl in *.
  - destruct (call_each_returns body ls args (record (Emit k args) w) sc)
      as (w' & H & Ha); auto.
    exists true, w'. rewrite H. split; [reflexivity|].
    assert (advanced_by [Emit k args] w (record (Emit k args) w)) as H0 by by repeat split.
    exact (advanced_by_trans _ _ _ _ _ H0 Ha).
  - exists false, (record (Emit k args) w). by repeat split.
Qed.

Lemma emit_throws k args w sc pre l post acts e rest :
  signalingClient (this w) = Some sc ->
  isRealtimeNotificationsStarted (this w) = true ->
  EventEmitter.listeners k (emitter (this w)) = pre ++ l :: post ->
  (forall x, x ∈ pre -> never_throws body x = true) ->
  body l = acts ++ Throw e :: rest ->
  forallb (fun a => negb (is_throw a)) acts = true ->
  exists w',
    emit body k args w = Thrown e w' /\
    advanced_by (Emit k args :: map (fun x => Call x args) (pre ++ [l])) w w'.
Proof.
  intros Hsc Hon Hls Hpre Hl Hacts.
  assert (emitter (this w) !! k = Some (pre ++ l :: post)) as Hk.
  { destruct pre; simpl in *; by apply listeners_cons_lookup. }
  unfold emit, bind, log, get_this, ret. simpl. rewrite Hk.
  destruct (call_each_throws body pre l post args (record (Emit k args) w) sc acts e rest)
    as (w' & H & Ha); auto.
  exists w'. rewrite H. split; [reflexivity|].
  assert (advanced_by [Emit k args] w (record (Emit k args) w)) as H0 by by repeat split.
  exact (advanced_by_trans _ _ _ _ _ H0 Ha).
Qed.

(** With the bridge installed once, a transport event is dropped or is one
    [emit], as the table says. *)
Lemma transport_raises_published name v w :
  signalingClient (this w) = Some {| handlers := bridge_handlers |} ->
  transport_raises body name v w =
  match published_as name v with
  | Some (k, args) =>
      match emit body k args w with
      | Normal _ w' => Normal tt w'
      | Thrown e w' => Thrown e w'
      end
  | None => Normal tt w
  end.
Proof.
  intros Hsc. unfold transport_raises, bind, get_this. rewrite Hsc.
  destruct name; [destruct v as [[| |c]|p]|..]; simpl; unfold bind, ret;
    try reflexivity; by destruct (emit body _ _ w).
Qed.

Lemma transport_raises_unbridged name v w sc :
  signalingClient (this w) = Some sc ->
  handlers sc = [] ->
  transport_raises body name v w = Normal tt w.
Proof.
  intros Hsc Hnil. unfold transport_raises, bind, get_this. rewrite Hsc, Hnil.
  reflexivity.
Qed.

Lemma emissions_app (t1 t2 : list (Effect Payload)) :
  emissions (t1 ++ t2) = emissions t1 ++ emissions t2.
Proof. apply omap_app. Qed.

Lemma emissions_calls ls args :
  emissions (map (fun l => Call l args) ls) = [].
Proof. induction ls; [reflexivity|exact IHls]. Qed.

Lemma listener_calls_app (t1 t2 : list (Effect Payload)) :
  listener_calls (t1 ++ t2) = listener_calls t1 ++ listener_calls t2.
Proof. apply omap_app. Qed.

Lemma listener_calls_calls ls args :
  listener_calls (map (fun l => Call l args) ls) = map (fun l => (l, args)) ls.
Proof. induction ls as [|l ls IH]; [reflexivity|]. simpl. by rewrite <- IH. Qed.

(** With a transport and the flag set, every call of the application
    returns and leaves the transport, the flag and the trace alone; a
    [Start] among them is a no-op. *)
Lemma perform_when_started c w sc :
  signalingClient (this w) = Some sc ->
  isRealtimeNotificationsStarted (this w) = true ->
  exists w', perform c w = Normal tt w' /\ same_session w w'.
Proof.
  intros Hsc Hon. destruct c as [k l|k l|o]; simpl.
  - eexists. split; [apply (on_registers k l w sc); auto|]. by repeat split.
  - eexists. split; [apply (off_unregisters k l w sc); auto|]. by repeat split.
  - rewrite (start_when_started w sc Hsc Hon). exists w.
    split; [reflexivity|apply same_session_refl].
Qed.

Lemma perform_all_when_started cs w sc :
  signalingClient (this w) = Some sc ->
  isRealtimeNotificationsStarted (this w) = true ->
  all_return cs w = true /\ same_session w (perform_all cs w).
Proof.
  revert w. induction cs as [|c cs IH]; intros w Hsc Hon; simpl.
  - split; [reflexivity|apply same_session_refl].
  - destruct (perform_when_started c w sc Hsc Hon) as (w1 & H1 & Hs1).
    rewrite H1. simpl. destruct Hs1 as (Hsc1 & Hon1 & Ht1).
    destruct (IH w1) as [Hall Hs]; [congruence|congruence|].
    split; [exact Hall|].
    eapply same_session_trans; [|exact Hs]. by repeat split.
Qed.

(** The array of an event after a run of [on] and [off] calls is the array
    before it with each registration appended and each removal applied to
    the latest matching entry, in the order of the calls. *)
Lemma perform_all_registrations cs w sc k :
  signalingClient (this w) = Some sc ->
  isRealtimeNotificationsStarted (this w) = true ->
  EventEmitter.listeners k (emitter (this (perform_all cs w))) =
  registrations k cs (EventEmitter.listeners k (emitter (this w))).
Proof.
  revert w. induction cs as [|c cs IH]; intros w Hsc Hon; [reflexivity|].
  cbn [perform_all registrations foldl].
  destruct (perform_when_started c w sc Hsc Hon) as (w1 & H1 & (Hsc1 & Hon1 & _)).
  rewrite H1. cbn [world_of].
  fold (registrations k cs (registration_step k (EventEmitter.listeners k (emitter (this w))) c)).
  rewrite (IH w1) by congruence. f_equal.
  destruct c as [k' l|k' l|o]; simpl in *.
  - rewrite (on_registers k' l w sc) in H1 by auto. simplify_eq. simpl.
    destruct (decide (k' = k)) as [->|Hne]; [apply listeners_on|].
    apply listeners_on_ne. congruence.
  - rewrite (off_unregisters k' l w sc) in H1 by auto. simplify_eq. simpl.
    destruct (decide (k' = k)) as [->|Hne]; [apply listeners_removeListener|].
    apply listeners_removeListener_ne. congruence.
  - rewrite (start_when_started w sc Hsc Hon) in H1. simpl in H1. by simplify_eq.
Qed.

End Publishing.

Section PublishingClaims.

Context {Payload : Type}.
Variable body : ListenerRef -> list Action.

Implicit Types (w : World Payload) (k : ChatEventId) (l : ListenerRef).
Implicit Types (ls : list ListenerRef) (args : list (Value Payload)) (v : Value Payload).
Implicit Types (sc : SignalingClient) (acts : list Action).

(** C2, as the code has it. On a started session with the bridge installed,
    let the transport raise an event that is published as [k], and let the
    array of [k] be [pre ++ l :: post], where no listener of [pre] throws and
    the body of [l] reaches a [throw e]. Then the listeners of [pre] and [l]
    are called, in that order, no listener of [post] is called, and [e]
    leaves [emit], the bridge closure and so reaches the transport. *)
Theorem throwing_listener_ends_delivery name v k args w pre l post acts e rest :
  signalingClient (this w) = Some {| handlers := bridge_handlers |} ->
  isRealtimeNotificationsStarted (this w) = true ->
  published_as name v = Some (k, args) ->
  EventEmitter.listeners k (emitter (this w)) = pre ++ l :: post ->
  (forall x, x ∈ pre -> never_throws body x = true) ->
  body l = acts ++ Throw e :: rest ->
  forallb (fun a => negb (is_throw a)) acts = true ->
  exists w',
    emit body k args w = Thrown e w' /\
    transport_raises body name v w = Thrown e w' /\
    trace w' = trace w ++ Emit k args :: map (fun x => Call x args) (pre ++ [l]).
Proof.
  intros Hsc Hon Hpub Hls Hpre Hl Hacts.
  destruct (emit_throws body k args w _ pre l post acts e rest Hsc Hon Hls Hpre Hl Hacts)
    as (w' & Hemit & _ & _ & Ht).
  exists w'. split; [exact Hemit|]. split; [|exact Ht].
  rewrite (transport_raises_published body name v w Hsc), Hpub. by rewrite Hemit.
Qed.

(** C5. On a session with a transport, whatever is registered and whatever
    the state: [stopRealtimeNotifications] unsets the flag and calls the
    transport's [stop] before it suspends; once that call has resolved the
    method returns, the flag is unset, the emitter holds no listener for
    any event, and an [emit] of any event then calls no listener. *)
Theorem stop_clears_every_listener w sc :
  signalingClient (this w) = Some sc ->
  exists w1 resumption w',
    stopRealtimeNotifications w = Await stop w1 resumption /\
    isRealtimeNotificationsStarted (this w1) = false /\
    trace w1 = trace w ++ [TransportStop] /\
    settle Resolved (stopRealtimeNotifications w) = Normal tt w' /\
    isRealtimeNotificationsStarted (this w') = false /\
    trace w' = trace w ++ [TransportStop] /\
    emitter (this w') = ∅ /\
    (forall k, EventEmitter.listeners k (emitter (this w')) = []) /\
    (forall k args, emit body k args w' = Normal false (record (Emit k args) w')).
Proof.
  intros Hsc. do 3 eexists.
  split. { unfold stopRealtimeNotifications. rewrite Hsc. reflexivity. }
  split; [reflexivity|]. split; [reflexivity|].
  split; [exact (stop_resolved w sc Hsc)|].
  simpl. split; [reflexivity|]. split; [reflexivity|]. split; [reflexivity|].
  split; [intros k; apply listeners_empty|].
  intros k args. apply emit_no_listener. simpl. apply lookup_empty.
Qed.

(** C6. With the bridge installed once on the transport, and whatever the
    listeners do: a [connectionChanged] carrying [Connected] adds to the
    trace exactly one [emit], of [realTimeNotificationConnected] with no
    argument; one carrying [Disconnected] exactly one [emit], of
    [realTimeNotificationDisconnected]; one carrying any other value
    returns with the world unchanged, so nothing is emitted. *)
Theorem connection_state_translation w :
  signalingClient (this w) = Some {| handlers := bridge_handlers |} ->
  (exists t,
     trace (world_of (transport_raises body Signaling.connectionChanged
                        (VConnectionState Connected) w)) = trace w ++ t /\
     emissions t = [(realTimeNotificationConnected, [])]) /\
  (exists t,
     trace (world_of (transport_raises body Signaling.connectionChanged
                        (VConnectionState Disconnected) w)) = trace w ++ t /\
     emissions t = [(realTimeNotificationDisconnected, [])]) /\
  (forall v,
     v ≠ VConnectionState Connected ->
     v ≠ VConnectionState Disconnected ->
     transport_raises body Signaling.connectionChanged v w = Normal tt w).
Proof.
  intros Hsc. repeat split.
  - rewrite (transport_raises_published body _ _ w Hsc). simpl.
    destruct (emit_advances body realTimeNotificationConnected [] w) as (n & _ & _ & Ht).
    eexists. split.
    + destruct (emit body realTimeNotificationConnected [] w); exact Ht.
    + simpl. by rewrite emissions_calls.
  - rewrite (transport_raises_published body _ _ w Hsc). simpl.
    destruct (emit_advances body realTimeNotificationDisconnected [] w) as (n & _ & _ & Ht).
    eexists. split.
    + destruct (emit body realTimeNotificationDisconnected [] w); exact Ht.
    + simpl. by rewrite emissions_calls.
  - intros v Hc Hd. rewrite (transport_raises_published body _ _ w Hsc).
    by destruct v as [[| |c]|p].
Qed.

(** C7, as the code has it. Start from a started session with the bridge
    installed and make any sequence of [on] and [off] calls (a
    [startRealtimeNotifications] among them changes nothing): every call
    returns, and the array of listeners of [k] is the one the sequence
    describes. If then no listener registered under [k] throws,
    an [emit] of [k] calls exactly the listeners registered under [k] at
    that time, each once, in the order of registration, with the arguments
    of the [emit]; and a transport event published as [k] is one such
    [emit], each listener receiving the payload the transport delivered. *)
Theorem publication_reaches_registered_listeners w0 calls k :
  signalingClient (this w0) = Some {| handlers := bridge_handlers |} ->
  isRealtimeNotificationsStarted (this w0) = true ->
  (forall l,
     l ∈ EventEmitter.listeners k (emitter (this (perform_all calls w0))) ->
     never_throws body l = true) ->
  let w := perform_all calls w0 in
  all_return calls w0 = true /\
  EventEmitter.listeners k (emitter (this w)) =
    registrations k calls (EventEmitter.listeners k (emitter (this w0))) /\
  (forall args, exists b w',
     emit body k args w = Normal b w' /\
     trace w' = trace w ++ Emit k args ::
       map (fun l => Call l args) (EventEmitter.listeners k (emitter (this w)))) /\
  (forall name v, published_as name v = Some (k, [v]) ->
     exists w',
       transport_raises body name v w = Normal tt w' /\
       trace w' = trace w ++ Emit k [v] ::
         map (fun l => Call l [v]) (EventEmitter.listeners k (emitter (this w)))).
Proof.
  intros Hsc Hon Hquiet w.
  destruct (perform_all_when_started calls w0 _ Hsc Hon) as [Hall (Hsc' & Hon' & _)].
  fold w in Hsc', Hon'. rewrite Hsc in Hsc'. rewrite Hon in Hon'.
  split; [exact Hall|].
  split; [by eapply perform_all_registrations|].
  split.
  - intros args.
    destruct (emit_returns body k args w _ Hsc' Hon' Hquiet) as (b & w' & He & _ & _ & Ht).
    by exists b, w'.
  - intros name v Hpub.
    destruct (emit_returns body k [v] w _ Hsc' Hon' Hquiet) as (b & w' & He & _ & _ & Ht).
    exists w'. rewrite (transport_raises_published body name v w Hsc'), Hpub, He.
    by split.
Qed.

End PublishingClaims.

(** ** The theorems at sample sessions *)

(** C1 at a new session with a transport: at the [await] the flag is set and
    nothing is installed; after it the five subscriptions are. *)
Lemma start_sets_flag_then_starts_then_bridges_witness :
  exists w1 resumption w2,
    startRealtimeNotifications (@new_world string true) = Await start w1 resumption /\
    isRealtimeNotificationsStarted (this w1) = true /\
    trace w1 = [TransportStart] /\
    settle Resolved (startRealtimeNotifications (@new_world string true)) = Normal tt w2 /\
    signalingClient (this w2) = Some {| handlers := bridge_handlers |}.
Proof.
  destruct (start_sets_flag_then_starts_then_bridges (@new_world string true)
              {| handlers := [] |} eq_refl eq_refl)
    as (w1 & r & w2 & H1 & H2 & _ & H3 & H4 & _ & H5 & _).
  exists w1, r, w2. repeat split; assumption.
Defined.

(** C1 as worded fails: the method suspends on the transport's [start] with
    the flag already set. *)
Lemma start_sets_flag_before_awaiting :
  (exists w1 resumption,
     startRealtimeNotifications (@new_world string true) = Await start w1 resumption /\
     isRealtimeNotificationsStarted (this w1) = true) /\
  ~ started_after_transport_start (@new_world string true).
Proof.
  split.
  - do 2 eexists. split; reflexivity.
  - intros H. specialize (H _ _ eq_refl). discriminate H.
Qed.

(** C2 at a started session where listener [1], which throws, is registered
    before listener [2]. *)
Lemma throwing_listener_ends_delivery_witness :
  exists w',
    transport_raises Scenario.faulty Signaling.participantsAdded Scenario.u1
      Scenario.two_listeners = Thrown (Error "listener failed"%string) w' /\
    trace w' = trace Scenario.two_listeners ++
               [Emit participantsAdded [Scenario.u1]; Call 1 [Scenario.u1]].
Proof.
  destruct (throwing_listener_ends_delivery Scenario.faulty
              Signaling.participantsAdded Scenario.u1 participantsAdded [Scenario.u1]
              Scenario.two_listeners [] 1 [2] [] (Error "listener failed"%string) [])
    as (w' & _ & Hraise & Ht); try reflexivity.
  - intros x Hx. by apply elem_of_nil in Hx.
  - exists w'. split; assumption.
Defined.

(** C2 as worded fails: listener [2] is not called and the handler of the
    transport event throws. *)
Lemma throwing_listener_silences_the_next :
  (exists w',
     transport_raises Scenario.faulty Signaling.participantsAdded Scenario.u1
       Scenario.two_listeners = Thrown (Error "listener failed"%string) w' /\
     listener_calls (trace w') = [(1, [Scenario.u1])]) /\
  ~ listeners_isolated Scenario.faulty Signaling.participantsAdded Scenario.u1
      Scenario.two_listeners.
Proof.
  split.
  - eexists. split; vm_compute; reflexivity.
  - intros [H _]. vm_compute in H. discriminate H.
Qed.

(** C4 at a new session with a transport. *)
Lemma start_twice_sets_up_once_witness :
  exists w1,
    perform_all [Start Resolved; Start Resolved] (@new_world string true) = w1 /\
    startRealtimeNotifications w1 = Done (Normal tt w1) /\
    transport_starts (trace w1) = 1 /\
    subscriptions_installed (trace w1) = bridge_handlers.*1.
Proof.
  destruct (start_twice_sets_up_once (@new_world string true) {| handlers := [] |}
              Resolved eq_refl) as (Hsecond & Hall & Hfirst).
  destruct (Hfirst eq_refl eq_refl) as (_ & Hstarts & Hsubs & _).
  eexists. split; [apply Hall|]. split; [exact Hsecond|]. split; assumption.
Defined.

(** C5 at a started session with two listeners. *)
Lemma stop_clears_every_listener_witness :
  exists w',
    settle Resolved (stopRealtimeNotifications Scenario.two_listeners) = Normal tt w' /\
    isRealtimeNotificationsStarted (this w') = false /\
    EventEmitter.listeners participantsAdded (emitter (this w')) = [] /\
    emit Scenario.quiet participantsAdded [Scenario.u1] w' =
      Normal false (record (Emit participantsAdded [Scenario.u1]) w').
Proof.
  destruct (stop_clears_every_listener Scenario.quiet Scenario.two_listeners
              {| handlers := bridge_handlers |} eq_refl)
    as (w1 & r & w' & _ & _ & _ & Hstop & Hflag & _ & _ & Hnone & Hemit).
  exists w'. split; [exact Hstop|]. split; [exact Hflag|].
  split; [apply Hnone|apply Hemit].
Defined.

(** C6 at a started session, with a listener that throws at hand. *)
Lemma connection_state_translation_witness :
  (exists t,
     trace (world_of (transport_raises Scenario.faulty Signaling.connectionChanged
                        (VConnectionState Connected) Scenario.active))
       = trace Scenario.active ++ t /\
     emissions t = [(realTimeNotificationConnected, [])]) /\
  transport_raises Scenario.faulty Signaling.connectionChanged
    (VConnectionState (OtherState 9)) Scenario.active = Normal tt Scenario.active.
Proof.
  destruct (connection_state_translation Scenario.faulty Scenario.active eq_refl)
    as (Hconn & _ & Hother).
  split; [exact Hconn|]. apply Hother; discriminate.
Defined.

(** C7 at a started session after four calls of [on] and [off], with a
    listener that changes the registrations while the event is delivered:
    the listeners called are those registered when the event was
    published. *)
Lemma publication_reaches_registered_listeners_witness :
  exists w',
    transport_raises Scenario.reentrant Signaling.participantsAdded Scenario.u1
      (perform_all [Subscribe participantsAdded 1; Subscribe participantsAdded 2;
                    Unsubscribe participantsAdded 1; Subscribe participantsAdded 3]
         Scenario.active) = Normal tt w' /\
    listener_calls (trace w') = [(2, [Scenario.u1]); (3, [Scenario.u1])] /\
    EventEmitter.listeners participantsAdded (emitter (this w')) = [2; 4].
Proof.
  destruct (publication_reaches_registered_listeners Scenario.reentrant Scenario.active
              [Subscribe participantsAdded 1; Subscribe participantsAdded 2;
               Unsubscribe participantsAdded 1; Subscribe participantsAdded 3]
              participantsAdded eq_refl eq_refl)
    as (_ & _ & _ & Hraise).
  { intros l _. unfold never_throws, Scenario.reentrant. by destruct (decide (l = 2)). }
  destruct (Hraise Signaling.participantsAdded Scenario.u1 eq_refl) as (w' & H & Ht).
  exists w'. split; [exact H|]. split; [rewrite Ht; reflexivity|].
  vm_compute in H. by simplify_eq.
Defined.

(** C7 as worded fails: listener [2] is registered when the event is
    published and is not called. *)
Lemma registered_listener_not_reached :
  EventEmitter.listeners participantsAdded (emitter (this Scenario.two_listeners)) = [1; 2] /\
  listener_calls
    (trace (world_of (transport_raises Scenario.faulty Signaling.participantsAdded
                        Scenario.u1 Scenario.two_listeners))) = [(1, [Scenario.u1])] /\
  ~ delivered_to_all_registered Scenario.faulty Signaling.participantsAdded Scenario.u1
      Scenario.two_listeners.
Proof.
  split; [reflexivity|]. split; [vm_compute; reflexivity|].
  intros H. specialize (H participantsAdded [Scenario.u1] eq_refl).
  vm_compute in H. discriminate H.
Qed.

(** The end-to-end scenario of spec section 8: a listener registered after
    [start] is called once with the payload the transport raised, and not
    again once [stop] has resolved. *)
Example end_to_end_scenario :
  let w1 := perform_all [Start Resolved; Subscribe participantsAdded 1] (@new_world string true) in
  let w2 := world_of (transport_raises Scenario.quiet Signaling.participantsAdded Scenario.u1 w1) in
  let w3 := world_of (settle Resolved (stopRealtimeNotifications w2)) in
  let w4 := world_of (transport_raises Scenario.quiet Signaling.participantsAdded Scenario.u1 w3) in
  listener_calls (trace w2) = [(1, [Scenario.u1])] /\
  listener_calls (trace w4) = [(1, [Scenario.u1])].
Proof. split; reflexivity. Qed.

(** * Further properties of the code *)

(** ** The options of the constructor *)

Section Options.

Implicit Types (endpoint : string) (options : gmap string JsValue).

Lemma js_or_truthy a b : truthy b = true -> truthy (js_or a b) = true.
Proof. intros Hb. unfold js_or. by destruct (truthy a) eqn:Ha. Qed.

Lemma gatewayApiVersion_kept endpoint options :
  get_property (clientOptions endpoint options) "gatewayApiVersion"%string =
  js_or (get_property options "gatewayApiVersion"%string) (JsString "2024-03-07"%string).
Proof. unfold clientOptions, get_property at 1. by rewrite lookup_insert_eq. Qed.

(** The options kept by the constructor: [resourceEndpoint] is the endpoint
    of the client, whatever the caller put there; [gatewayApiVersion] is the
    caller's value when that is truthy and ["2024-03-07"] otherwise, so for
    a missing, an [undefined] and an empty version alike; every other
    option of the caller is passed on as it is. *)
Theorem clientOptions_properties endpoint options :
  clientOptions endpoint options !! "resourceEndpoint"%string = Some (JsString endpoint) /\
  (exists version,
     clientOptions endpoint options !! "gatewayApiVersion"%string = Some version /\
     truthy version = true /\
     (truthy (get_property options "gatewayApiVersion"%string) = true ->
      version = get_property options "gatewayApiVersion"%string) /\
     (truthy (get_property options "gatewayApiVersion"%string) = false ->
      version = JsString "2024-03-07"%string)) /\
  (forall name,
     name ≠ "resourceEndpoint"%string -> name ≠ "gatewayApiVersion"%string ->
     clientOptions endpoint options !! name = options !! name).
Proof.
  unfold clientOptions. split; [|split].
  - rewrite lookup_insert_ne by done. by rewrite lookup_insert_eq.
  - eexists. split; [by rewrite lookup_insert_eq|].
    split; [by apply js_or_truthy|].
    unfold js_or. split; intros ->; reflexivity.
  - intros name Hr Hg. by rewrite !lookup_insert_ne.
Qed.

(** Options that went through the constructor once go through it again
    unchanged but for the endpoint: the version chosen the first time is
    kept and the endpoint of the second client replaces that of the
    first. *)
Theorem clientOptions_again endpoint endpoint' options :
  clientOptions endpoint' (clientOptions endpoint options) = clientOptions endpoint' options.
Proof.
  unfold clientOptions at 1. rewrite gatewayApiVersion_kept.
  unfold js_or at 1.
  rewrite (js_or_truthy (get_property options "gatewayApiVersion"%string)
             (JsString "2024-03-07"%string) eq_refl).
  unfold clientOptions. apply map_eq. intros name.
  destruct (decide (name = "gatewayApiVersion"%string)) as [->|Hg].
  { by rewrite !lookup_insert_eq. }
  rewrite (lookup_insert_ne _ _ name) by done.
  rewrite (lookup_insert_ne _ "gatewayApiVersion"%string name) by done.
  destruct (decide (name = "resourceEndpoint"%string)) as [->|Hr].
  { by rewrite !lookup_insert_eq. }
  by rewrite !lookup_insert_ne.
Qed.

End Options.

(** The options at a caller who passes an empty version, an endpoint of its
    own and one more option. *)
Lemma clientOptions_properties_witness :
  clientOptions "https://contoso"%string Samples.options !! "gatewayApiVersion"%string
    = Some (JsString "2024-03-07"%string) /\
  clientOptions "https://contoso"%string Samples.options !! "registrationTimeInMs"%string
    = Some (JsNumber 5000).
Proof.
  destruct (clientOptions_properties "https://contoso"%string Samples.options)
    as (_ & (version & Hv & _ & _ & Hdefault) & Hrest).
  split.
  - rewrite Hv. f_equal. apply Hdefault. reflexivity.
  - rewrite Hrest by discriminate. reflexivity.
Defined.

(** ** The text of the spans *)

Section Spans.

Import Snippets.

Implicit Types (content : text) (span : DocumentSpan.t) (spans : list DocumentSpan.t).

Lemma slice_from_start {A} (s : list A) (from to : Z) :
  (0 <= from)%Z -> (0 <= to)%Z ->
  slice s from to = take (Z.to_nat (to - from)) (drop (Z.to_nat from) s).
Proof.
  intros Hfrom Hto. unfold slice.
  destruct (Z.ltb_spec from 0) as [|_]; [lia|].
  destruct (Z.ltb_spec to 0) as [|_]; [lia|].
  set (len := Z.of_nat (List.length s)).
  destruct (decide (from <= len)%Z) as [Hin|Hout].
  - rewrite (Z.min_l from len) by lia.
    destruct (decide (to <= len)%Z) as [Hin'|Hout'].
    + by rewrite (Z.min_l to len) by lia.
    + rewrite (Z.min_r to len) by lia.
      rewrite !take_ge; [done| |]; rewrite length_drop; subst len; lia.
  - rewrite (Z.min_r from len) by lia.
    rewrite !drop_ge by (subst len; lia). by rewrite !take_nil.
Qed.

(** A span that lies inside the content yields exactly its region: as many
    code units as the span is long, the code unit at index [j] being that
    of the content at [offset + j]. *)
Theorem getTextOfSpans_inside content spans i span :
  spans !! i = Some span ->
  (0 <= DocumentSpan.offset span)%Z ->
  (0 <= DocumentSpan.length span)%Z ->
  (DocumentSpan.offset span + DocumentSpan.length span <= Z.of_nat (List.length content))%Z ->
  exists t,
    getTextOfSpans content spans !! i = Some t /\
    List.length t = Z.to_nat (DocumentSpan.length span) /\
    forall j, j < List.length t ->
              t !! j = content !! (Z.to_nat (DocumentSpan.offset span) + j).
Proof.
  intros Hi Hoff Hlen Hin. eexists. split.
  { unfold getTextOfSpans. rewrite list_lookup_fmap, Hi. reflexivity. }
  rewrite slice_from_start by lia.
  replace (DocumentSpan.offset span + DocumentSpan.length span - DocumentSpan.offset span)%Z
    with (DocumentSpan.length span) by lia.
  split.
  - rewrite length_take, length_drop. lia.
  - intros j Hj. rewrite length_take in Hj.
    rewrite lookup_take_lt by lia. by rewrite lookup_drop.
Qed.

(** A span that runs over the end of the content raises no error: the text
    is cut at the end of the content, and it is empty for a span that starts
    at or after the end. *)
Theorem getTextOfSpans_clamped content spans i span :
  spans !! i = Some span ->
  (0 <= DocumentSpan.offset span)%Z ->
  (0 <= DocumentSpan.length span)%Z ->
  exists t,
    getTextOfSpans content spans !! i = Some t /\
    Z.of_nat (List.length t) =
      Z.min (DocumentSpan.length span)
            (Z.max 0 (Z.of_nat (List.length content) - DocumentSpan.offset span)) /\
    ((Z.of_nat (List.length content) <= DocumentSpan.offset span)%Z -> t = []).
Proof.
  intros Hi Hoff Hlen. eexists. split.
  { unfold getTextOfSpans. rewrite list_lookup_fmap, Hi. reflexivity. }
  rewrite slice_from_start by lia.
  split.
  - rewrite length_take, length_drop. lia.
  - intros Hpast. rewrite drop_ge by lia. apply take_nil.
Qed.

Lemma contiguous_le from spans to : contiguous from spans to -> (from <= to)%Z.
Proof.
  revert from. induction spans as [|span rest IH]; intros from; simpl.
  - intros ->. lia.
  - intros (_ & Hlen & Hrest). apply IH in Hrest. lia.
Qed.

Lemma getTextOfSpans_contiguous content from spans to :
  (0 <= from)%Z ->
  contiguous from spans to ->
  mjoin (getTextOfSpans content spans) =
  take (Z.to_nat (to - from)) (drop (Z.to_nat from) content).
Proof.
  revert from. induction spans as [|span rest IH]; intros from Hfrom; simpl.
  - intros ->. by rewrite Z.sub_diag.
  - intros (Hoff & Hlen & Hrest).
    pose proof (contiguous_le _ _ _ Hrest) as Hle.
    assert (0 <= from + DocumentSpan.length span)%Z as Hnext by lia.
    rewrite (IH _ Hnext Hrest), Hoff.
    rewrite slice_from_start by lia.
    replace (from + DocumentSpan.length span - from)%Z with (DocumentSpan.length span) by lia.
    replace (Z.to_nat (from + DocumentSpan.length span))
      with (Z.to_nat from + Z.to_nat (DocumentSpan.length span)) by lia.
    rewrite <- drop_drop, take_take_drop. f_equal. lia.
Qed.

(** Spans that follow one another from the start of the content to its end
    give back the content: the texts yielded, put together in order, are
    the content. *)
Theorem getTextOfSpans_covering content spans :
  contiguous 0 spans (Z.of_nat (List.length content)) ->
  mjoin (getTextOfSpans content spans) = content.
Proof.
  intros Hspans.
  rewrite (getTextOfSpans_contiguous content 0 spans _ (Z.le_refl 0) Hspans).
  simpl. rewrite drop_0. apply take_ge. lia.
Qed.

End Spans.

(** The first sample span, inside the content. *)
Lemma getTextOfSpans_inside_witness :
  exists t, Snippets.getTextOfSpans Samples.content Samples.spans !! 0 = Some t /\
            List.length t = 3.
Proof.
  destruct (getTextOfSpans_inside Samples.content Samples.spans 0
              {| DocumentSpan.offset := 0; DocumentSpan.length := 3 |} eq_refl)
    as (t & Ht & Hlen & _); simpl; try lia.
  exists t. split; [exact Ht|exact Hlen].
Defined.

(** A span that starts inside the sample content and ends after it. *)
Lemma getTextOfSpans_clamped_witness :
  exists t,
    Snippets.getTextOfSpans Samples.content
      [ {| DocumentSpan.offset := 3; DocumentSpan.length := 10 |} ] !! 0 = Some t /\
    Z.of_nat (List.length t) = 1%Z.
Proof.
  destruct (getTextOfSpans_clamped Samples.content
              [ {| DocumentSpan.offset := 3; DocumentSpan.length := 10 |} ] 0
              {| DocumentSpan.offset := 3; DocumentSpan.length := 10 |} eq_refl)
    as (t & Ht & Hlen & _); simpl; try lia.
  exists t. split; [exact Ht|]. rewrite Hlen. reflexivity.
Defined.

(** The two sample spans cover the sample content. *)
Lemma getTextOfSpans_covering_witness :
  mjoin (Snippets.getTextOfSpans Samples.content Samples.spans) = Samples.content.
Proof.
  apply getTextOfSpans_covering. simpl. repeat split; lia.
Defined.

(** ** The escaping of the text *)

Section Escaping.

Import Snippets.

Implicit Types (t s rest : text) (c : N).

Lemma replace_newlines_other c rest :
  c ≠ LF -> (c = CR -> head rest ≠ Some LF) ->
  replace_newlines (c :: rest) = c :: replace_newlines rest.
Proof.
  intros Hc Hcr. simpl. rewrite decide_False by done.
  destruct rest as [|d rest']; [done|].
  rewrite decide_False; [done|]. intros [-> ->]. by apply Hcr.
Qed.

(** The cases of the scan: a line feed, a carriage return with its line
    feed, any other code unit. *)
Lemma text_scan_ind (P : text -> Prop) :
  P [] ->
  (forall rest, P rest -> P (LF :: rest)) ->
  (forall rest, P rest -> P (CR :: LF :: rest)) ->
  (forall c rest, c ≠ LF -> (c = CR -> head rest ≠ Some LF) -> P rest -> P (c :: rest)) ->
  forall t, P t.
Proof.
  intros Hnil Hlf Hcrlf Hother t.
  assert (forall n t, List.length t <= n -> P t) as Hall; [|by apply (Hall (List.length t))].
  clear t. induction n as [|n IH]; intros t Hlen.
  { destruct t; [done|simpl in Hlen; lia]. }
  destruct t as [|c rest]; [done|]. simpl in Hlen.
  destruct (decide (c = LF)) as [->|Hc]; [apply Hlf, IH; lia|].
  destruct rest as [|d rest'].
  { apply Hother; [done|by intros _|done]. }
  destruct (decide (c = CR /\ d = LF)) as [[-> ->]|Hno].
  - apply Hcrlf, IH. simpl in Hlen. lia.
  - apply Hother; [done| |apply IH; lia].
    intros -> [= ->]. by apply Hno.
Qed.

Lemma escapedText_LF rest :
  escapedText (LF :: rest) = BACKSLASH :: LOWER_N :: escapedText rest.
Proof. reflexivity. Qed.

Lemma escapedText_CRLF rest :
  escapedText (CR :: LF :: rest) = BACKSLASH :: LOWER_N :: escapedText rest.
Proof. reflexivity. Qed.

Lemma escapedText_other c rest :
  c ≠ LF -> (c = CR -> head rest ≠ Some LF) ->
  escapedText (c :: rest) =
  (if decide (c = QUOTE) then [BACKSLASH; QUOTE] else [c]) ++ escapedText rest.
Proof.
  intros Hc Hcr. unfold escapedText. by rewrite replace_newlines_other.
Qed.

(** The escaped text holds no line feed, so it is printed on one line. *)
Theorem escapedText_no_line_feed t : LF ∉ escapedText t.
Proof.
  induction t as [|rest IH|rest IH|c rest Hc Hcr IH] using text_scan_ind.
  - apply not_elem_of_nil.
  - rewrite escapedText_LF. rewrite !not_elem_of_cons. by repeat split.
  - rewrite escapedText_CRLF. rewrite !not_elem_of_cons. by repeat split.
  - rewrite (escapedText_other c rest Hc Hcr). rewrite not_elem_of_app. split; [|done].
    destruct (decide (c = QUOTE)); rewrite !not_elem_of_cons; repeat split;
      try done; apply not_elem_of_nil.
Qed.

(** In the escaped text every quotation mark stands right after a
    backslash. *)
Theorem escapedText_quotes t : quotes_follow_backslash (escapedText t).
Proof.
  unfold escapedText, quotes_follow_backslash.
  generalize (replace_newlines t). clear t. intros s.
  induction s as [|c s IH]; intros before after Heq; simpl in Heq.
  { by destruct before. }
  destruct (decide (c = QUOTE)) as [->|Hc]; simpl in Heq.
  - destruct before as [|b1 [|b2 before]]; simpl in Heq.
    + discriminate Heq.
    + injection Heq as <- _. by exists [].
    + injection Heq as <- <- Heq. destruct (IH _ _ Heq) as [p ->].
      by exists (BACKSLASH :: QUOTE :: p).
  - destruct before as [|b before]; simpl in Heq.
    + injection Heq as Hhead _. done.
    + injection Heq as <- Heq. destruct (IH _ _ Heq) as [p ->].
      by exists (c :: p).
Qed.

(** The escaped text is at least as long as the text and at most twice as
    long. *)
Theorem escapedText_length t :
  List.length t <= List.length (escapedText t) <= 2 * List.length t.
Proof.
  induction t as [|rest IH|rest IH|c rest Hc Hcr IH] using text_scan_ind.
  - simpl. lia.
  - rewrite escapedText_LF. simpl. lia.
  - rewrite escapedText_CRLF. simpl. lia.
  - rewrite (escapedText_other c rest Hc Hcr), length_app.
    destruct (decide (c = QUOTE)); simpl; lia.
Qed.

(** The escaping changes a text exactly when the text holds a line feed or
    a quotation mark. *)
Theorem escapedText_unchanged_iff t :
  escapedText t = t <-> ((LF ∉ t) /\ (QUOTE ∉ t)).
Proof.
  induction t as [|rest IH|rest IH|c rest Hc Hcr IH] using text_scan_ind.
  - split; [intros _; split; apply not_elem_of_nil|done].
  - split.
    + rewrite escapedText_LF. by intros [=].
    + intros [Hlf _]. exfalso. apply Hlf. by left.
  - split.
    + rewrite escapedText_CRLF. by intros [=].
    + intros [Hlf _]. exfalso. apply Hlf. right. by left.
  - rewrite (escapedText_other c rest Hc Hcr).
    destruct (decide (c = QUOTE)) as [->|Hq]; simpl.
    + split.
      * by intros [=].
      * intros [_ Hno]. exfalso. apply Hno. by left.
    + split.
      * intros [= Heq]. apply IH in Heq as [Hlf Hno].
        rewrite !not_elem_of_cons. by repeat split.
      * rewrite !not_elem_of_cons. intros [[_ Hlf] [_ Hno]].
        f_equal. apply IH. by split.
Qed.

End Escaping.

(** ** What every run of a session keeps *)

Section Preservation.

Context {Payload : Type}.
Variable body : ListenerRef -> list Action.

Implicit Types (w : World Payload) (k : ChatEventId) (l : ListenerRef).

(** A property of the world that the trace entries of a delivery, [on] and
    [off] keep is kept by everything a transport event sets off, whatever
    the bodies of the listeners do. *)
Variable P : World Payload -> Prop.
Hypothesis P_record : forall e w, is_delivery e = true -> P w -> P (record e w).
Hypothesis P_on : forall k l w, P w -> P (world_of (on k l w)).
Hypothesis P_off : forall k l w, P w -> P (world_of (off k l w)).

Lemma bind_preserves {A B} (m : M Payload A) (f : A -> M Payload B) w :
  (P w -> P (world_of (m w))) ->
  (forall a w', P w' -> P (world_of (f a w'))) ->
  P w -> P (world_of (bind m f w)).
Proof.
  intros Hm Hf Hw. unfold bind. specialize (Hm Hw).
  destruct (m w) as [a w'|e w']; simpl in *; auto.
Qed.

Lemma run_body_preserves acts w : P w -> P (world_of (run_body acts w)).
Proof.
  revert w. induction acts as [|a rest IH]; intros w Hw; [exact Hw|].
  simpl. apply bind_preserves; [|intros _ w'; apply IH|exact Hw].
  destruct a; simpl; auto.
Qed.

Lemma call_each_preserves ls args w : P w -> P (world_of (call_each body ls args w)).
Proof.
  revert w. induction ls as [|l rest IH]; intros w Hw; [exact Hw|].
  simpl. apply bind_preserves; [|intros _ w'; apply IH|exact Hw].
  intros _. unfold call.
  apply bind_preserves; [|intros _ w'; apply run_body_preserves|exact Hw].
  intros _. by apply P_record.
Qed.

Lemma emit_preserves k args w : P w -> P (world_of (emit body k args w)).
Proof.
  intros Hw. unfold emit.
  apply bind_preserves; [by intros _; apply P_record| |exact Hw].
  intros _ w1 Hw1. unfold bind, get_this.
  destruct (emitter (this w1) !! k) as [ls|]; [|exact Hw1].
  pose proof (call_each_preserves ls args w1 Hw1) as H.
  by destruct (call_each body ls args w1).
Qed.

Lemma apply_bridge_preserves h v w : P w -> P (world_of (apply_bridge body h v w)).
Proof.
  intros Hw.
  destruct h; [destruct v as [[| |c]|p]|..]; simpl; try exact Hw;
    (apply bind_preserves; [intros _; by apply emit_preserves|by intros|exact Hw]).
Qed.

Lemma dispatch_preserves hs name v w : P w -> P (world_of (dispatch body hs name v w)).
Proof.
  revert w. induction hs as [|[n h] rest IH]; intros w Hw; [exact Hw|].
  simpl. destruct (decide (n = name)); [|by apply IH].
  apply bind_preserves; [intros _; by apply apply_bridge_preserves| |exact Hw].
  intros _ w'. apply IH.
Qed.

Lemma transport_raises_preserves name v w :
  P w -> P (world_of (transport_raises body name v w)).
Proof.
  intros Hw. unfold transport_raises, bind, get_this.
  destruct (signalingClient (this w)) as [sc|]; [|exact Hw].
  by apply dispatch_preserves.
Qed.

End Preservation.

Section RunFacts.

Context {Payload : Type}.
Variable body : ListenerRef -> list Action.

Implicit Types (w : World Payload) (k : ChatEventId) (l : ListenerRef).
Implicit Types (sc : SignalingClient) (ss : list (@Step Payload)).

Lemma stop_rejected w sc e :
  signalingClient (this w) = Some sc ->
  settle (Rejected e) (stopRealtimeNotifications w) =
  Thrown e (record TransportStop (with_this (set_started false (this w)) w)).
Proof.
  intros Hsc. unfold stopRealtimeNotifications. rewrite Hsc.
  unfold settle, transport_settles, bind, resume, throw. simpl.
  by destruct (signalingClient (this w)).
Qed.

Lemma transport_starts_app (t1 t2 : list (Effect Payload)) :
  transport_starts (t1 ++ t2) = transport_starts t1 + transport_starts t2.
Proof. unfold transport_starts. by rewrite filter_app, length_app. Qed.

Lemma guarded_on k l w : guarded w -> guarded (world_of (on k l w)).
Proof.
  intros Hg. destruct (signalingClient (this w)) as [sc|] eqn:Hsc.
  2: { by rewrite (on_unsupported k l w Hsc). }
  destruct (on_same_session k l w) as (_ & Hflag & Ht).
  intros Hzero. rewrite Ht in Hzero. destruct (Hg Hzero) as [Hidle Hdom].
  split; [congruence|]. intros k' Hk'.
  destruct (is_domain_event k) eqn:Hk.
  - rewrite (on_before_start k l w sc Hsc Hidle Hk). by apply Hdom.
  - rewrite (on_registers k l w sc Hsc); [|right; by destruct k]. simpl.
    rewrite listeners_on_ne; [by apply Hdom|]. intros ->. congruence.
Qed.

Lemma guarded_off k l w : guarded w -> guarded (world_of (off k l w)).
Proof.
  intros Hg. destruct (signalingClient (this w)) as [sc|] eqn:Hsc.
  2: { by rewrite (off_unsupported k l w Hsc). }
  rewrite (off_unregisters k l w sc Hsc). simpl.
  intros Hzero. destruct (Hg Hzero) as [Hidle Hdom].
  split; [exact Hidle|]. intros k' Hk'. simpl.
  destruct (decide (k' = k)) as [->|Hne].
  - rewrite listeners_removeListener, (Hdom k Hk'). reflexivity.
  - rewrite listeners_removeListener_ne by done. by apply Hdom.
Qed.

Lemma guarded_record e w : is_delivery e = true -> guarded w -> guarded (record e w).
Proof.
  intros He Hg Hzero. simpl in Hzero. rewrite transport_starts_app in Hzero.
  apply Hg. lia.
Qed.

Lemma guarded_step s w : guarded w -> guarded (world_of (step body s w)).
Proof.
  intros Hg. destruct s as [[k l|k l|o]|o|name v]; simpl.
  - by apply guarded_on.
  - by apply guarded_off.
  - destruct (signalingClient (this w)) as [sc|] eqn:Hsc.
    2: { unfold startRealtimeNotifications. by rewrite Hsc. }
    destruct (isRealtimeNotificationsStarted (this w)) eqn:Hflag.
    { by rewrite (start_when_started w sc Hsc Hflag). }
    intros Hzero. exfalso. revert Hzero. destruct o as [|e].
    + rewrite (start_resolved w sc Hsc Hflag). simpl.
      rewrite transport_starts_app. unfold transport_starts at 2. simpl. lia.
    + rewrite (start_rejected w sc e Hsc Hflag). simpl.
      rewrite transport_starts_app. unfold transport_starts at 2. simpl. lia.
  - destruct (signalingClient (this w)) as [sc|] eqn:Hsc.
    2: { unfold stopRealtimeNotifications. by rewrite Hsc. }
    destruct o as [|e].
    + rewrite (stop_resolved w sc Hsc). simpl. intros _.
      split; [reflexivity|]. intros k _. apply listeners_empty.
    + rewrite (stop_rejected w sc e Hsc). simpl. intros Hzero. simpl in Hzero.
      rewrite transport_starts_app in Hzero.
      destruct Hg as [_ Hdom]; [lia|]. by split.
  - apply (transport_raises_preserves body guarded);
      auto using guarded_record, guarded_on, guarded_off.
Qed.

(** In every run of a new session, with or without a transport and whatever
    the listeners do: as long as the transport's [start] has not been
    called, the flag is unset and no listener is registered for any of the
    four domain events. *)
Theorem no_domain_listener_before_start supported ss :
  transport_starts (trace (run body ss (new_world supported))) = 0 ->
  isRealtimeNotificationsStarted (this (run body ss (new_world supported))) = false /\
  forall k, is_domain_event k = true ->
            EventEmitter.listeners k (emitter (this (run body ss (new_world supported)))) = [].
Proof.
  assert (forall w, guarded w -> guarded (run body ss w)) as Hrun.
  { induction ss as [|s rest IH]; intros w Hg; [exact Hg|].
    simpl. apply IH. by apply guarded_step. }
  apply Hrun. intros _. split; [reflexivity|]. intros k _. apply listeners_empty.
Qed.

Lemma step_unsupported s w :
  signalingClient (this w) = None -> world_of (step body s w) = w.
Proof.
  intros Hnone. destruct s as [[k l|k l|o]|o|name v]; simpl.
  - by rewrite (on_unsupported k l w Hnone).
  - by rewrite (off_unsupported k l w Hnone).
  - unfold startRealtimeNotifications. by rewrite Hnone.
  - unfold stopRealtimeNotifications. by rewrite Hnone.
  - unfold transport_raises, bind, get_this. by rewrite Hnone.
Qed.

Lemma step_supported s w :
  is_Some (signalingClient (this w)) ->
  is_Some (signalingClient (this (world_of (step body s w)))).
Proof.
  intros [sc Hsc]. destruct s as [[k l|k l|o]|o|name v]; simpl.
  - destruct (on_same_session k l w) as (-> & _). by exists sc.
  - destruct (off_same_session k l w) as (-> & _). by exists sc.
  - destruct (isRealtimeNotificationsStarted (this w)) eqn:Hflag.
    { rewrite (start_when_started w sc Hsc Hflag). by exists sc. }
    destruct o as [|e].
    + rewrite (start_resolved w sc Hsc Hflag). by eexists.
    + rewrite (start_rejected w sc e Hsc Hflag). by exists sc.
  - destruct o as [|e].
    + rewrite (stop_resolved w sc Hsc). by eexists.
    + rewrite (stop_rejected w sc e Hsc). by exists sc.
  - apply (transport_raises_preserves body
             (fun w => is_Some (signalingClient (this w)))); [done| | |by exists sc].
    + intros k l w' Hw'. by destruct (on_same_session k l w') as (-> & _).
    + intros k l w' Hw'. by destruct (off_same_session k l w') as (-> & _).
Qed.

(** Whether a session has a transport is settled when it is constructed.
    Without one, no run changes anything: the flag, the emitter and the
    trace stay as they are. With one, the session has it after every run. *)
Theorem capability_is_fixed ss w :
  (signalingClient (this w) = None -> run body ss w = w) /\
  (is_Some (signalingClient (this w)) ->
   is_Some (signalingClient (this (run body ss w)))).
Proof.
  split.
  - intros Hnone. induction ss as [|s rest IH]; [reflexivity|].
    simpl. by rewrite (step_unsupported s w Hnone).
  - revert w. induction ss as [|s rest IH]; intros w Hsome; [exact Hsome|].
    simpl. apply IH. by apply step_supported.
Qed.

End RunFacts.

(** A run in which listeners are registered, the session is stopped and an
    event is raised, and [start] is never called. *)
Lemma no_domain_listener_before_start_witness :
  EventEmitter.listeners chatMessageReceived
    (emitter (this (run Scenario.faulty
                      [Request (Subscribe chatMessageReceived 1);
                       Request (Subscribe realTimeNotificationConnected 2);
                       Raised Signaling.chatMessageReceived Scenario.u1;
                       Stop (Rejected (Error "stop failed"%string));
                       Request (Subscribe participantsAdded 3)]
                      (new_world true)))) = [].
Proof.
  apply (no_domain_listener_before_start Scenario.faulty true
           [Request (Subscribe chatMessageReceived 1);
            Request (Subscribe realTimeNotificationConnected 2);
            Raised Signaling.chatMessageReceived Scenario.u1;
            Stop (Rejected (Error "stop failed"%string));
            Request (Subscribe participantsAdded 3)]);
    reflexivity.
Defined.

(** A run on a session without a transport, and one on a session with. *)
Lemma capability_is_fixed_witness :
  run Scenario.quiet
    [Request (Start Resolved); Request (Subscribe realTimeNotificationConnected 1);
     Stop Resolved; Raised Signaling.participantsAdded Scenario.u1]
    (new_world false) = new_world false /\
  is_Some (signalingClient (this (run Scenario.quiet
    [Request (Start Resolved); Stop Resolved] (@new_world string true)))).
Proof.
  split.
  - apply (capability_is_fixed Scenario.quiet). reflexivity.
  - apply (capability_is_fixed Scenario.quiet). by eexists.
Defined.

(** ** How the operations compose *)

Section Composition.

Context {Payload : Type}.
Variable body : ListenerRef -> list Action.

Implicit Types (w : World Payload) (k : ChatEventId) (l : ListenerRef).
Implicit Types (ls : list ListenerRef) (args : list (Value Payload)) (v : Value Payload).
Implicit Types (sc : SignalingClient) (t : list (Effect Payload)).

(** [off] undoes the [on] before it: with a transport, and the flag set or
    the event a lifecycle signal, both calls return and the listener arrays
    of all events are as before the two calls; the registrations the
    listener had before are kept. *)
Theorem on_then_off_restores w sc k l :
  signalingClient (this w) = Some sc ->
  isRealtimeNotificationsStarted (this w) = true \/ is_lifecycle_signal k = true ->
  exists w1 w2,
    on k l w = Normal tt w1 /\
    off k l w1 = Normal tt w2 /\
    (forall k', EventEmitter.listeners k' (emitter (this w2)) =
                EventEmitter.listeners k' (emitter (this w))) /\
    same_session w w2.
Proof.
  intros Hsc Hok. do 2 eexists.
  split; [exact (on_registers k l w sc Hsc Hok)|].
  split; [by apply (off_unregisters k l _ sc)|].
  simpl. split; [|by repeat split].
  intros k'. destruct (decide (k' = k)) as [->|Hne].
  - rewrite listeners_removeListener, listeners_on.
    by rewrite (remove_last_split l _ [] (not_elem_of_nil l)), app_nil_r.
  - rewrite listeners_removeListener_ne, listeners_on_ne; done.
Qed.

Lemma times_called_app l t1 t2 :
  times_called l (t1 ++ t2) = times_called l t1 + times_called l t2.
Proof.
  unfold times_called. by rewrite listener_calls_app, filter_app, length_app.
Qed.

Lemma times_called_calls l ls args :
  times_called l (map (fun x => Call x args) ls) = times_registered l ls.
Proof.
  unfold times_called, times_registered. rewrite listener_calls_calls.
  induction ls as [|x ls IH]; [reflexivity|]. simpl.
  rewrite !filter_cons. simpl.
  destruct (decide (x = l)); simpl; by rewrite IH.
Qed.

(** A listener is called once for each of its registrations: on a started
    session with the bridge installed, a transport event published as [k],
    none of whose listeners throws, calls a listener as many times as it
    occurs in the array of [k], so twice for one registered twice and not
    at all for one not registered under [k]. *)
Theorem called_once_per_registration name v k args w l :
  signalingClient (this w) = Some {| handlers := bridge_handlers |} ->
  isRealtimeNotificationsStarted (this w) = true ->
  published_as name v = Some (k, args) ->
  (forall x, x ∈ EventEmitter.listeners k (emitter (this w)) -> never_throws body x = true) ->
  exists w',
    transport_raises body name v w = Normal tt w' /\
    times_called l (trace w') =
      times_called l (trace w) +
      times_registered l (EventEmitter.listeners k (emitter (this w))).
Proof.
  intros Hsc Hon Hpub Hquiet.
  destruct (emit_returns body k args w _ Hsc Hon Hquiet) as (b & w' & He & _ & _ & Ht).
  exists w'. rewrite (transport_raises_published body name v w Hsc), Hpub, He.
  split; [reflexivity|].
  rewrite Ht, times_called_app. f_equal.
  change (Emit k args :: ?t) with ([Emit k args] ++ t).
  by rewrite times_called_app, times_called_calls.
Qed.

(** Whatever the listeners do, a transport event never reaches a listener
    that is not registered for it: with the bridge installed, each call of
    a listener that the event sets off is of a listener registered, when the
    event was raised, under the event it is published as, and passes the
    arguments of that publication; an event that is not published calls
    nobody. *)
Theorem delivery_only_to_registered name v w :
  signalingClient (this w) = Some {| handlers := bridge_handlers |} ->
  exists t,
    trace (world_of (transport_raises body name v w)) = trace w ++ t /\
    forall l args,
      (l, args) ∈ listener_calls t ->
      exists k,
        published_as name v = Some (k, args) /\
        l ∈ EventEmitter.listeners k (emitter (this w)).
Proof.
  intros Hsc. rewrite (transport_raises_published body name v w Hsc).
  destruct (published_as name v) as [[k args]|].
  - destruct (emit_advances body k args w) as (n & _ & _ & Ht).
    eexists. split.
    { destruct (emit body k args w); exact Ht. }
    intros l args' Hin. simpl in Hin. rewrite listener_calls_calls in Hin.
    apply list_elem_of_fmap in Hin as (x & [= -> ->] & Hx).
    exists k. split; [reflexivity|].
    eapply subseteq_take, Hx.
  - exists []. simpl. split; [by rewrite app_nil_r|].
    intros l args Hin. by apply elem_of_nil in Hin.
Qed.

(** A [stop] of the transport that rejects: [stopRealtimeNotifications]
    throws the reason with the flag already unset and with every listener
    still registered; in that state [on] for a domain event throws the
    precondition error although the listeners registered before the call
    are still there. *)
Theorem stop_rejected_keeps_listeners w sc e :
  signalingClient (this w) = Some sc ->
  exists w',
    settle (Rejected e) (stopRealtimeNotifications w) = Thrown e w' /\
    isRealtimeNotificationsStarted (this w') = false /\
    emitter (this w') = emitter (this w) /\
    trace w' = trace w ++ [TransportStop] /\
    forall k l, is_domain_event k = true -> on k l w' = Thrown must_start_first w'.
Proof.
  intros Hsc. eexists. split; [exact (stop_rejected w sc e Hsc)|].
  simpl. repeat split.
  intros k l Hk. by apply (on_before_start k l _ sc).
Qed.

(** [stopRealtimeNotifications] does not look at the flag: each call on a
    session with a transport calls the transport's [stop], so [n] calls in
    a row, each resolving, put [n] such calls in the trace. *)
Theorem stop_is_not_guarded n w sc :
  signalingClient (this w) = Some sc ->
  trace (run body (replicate n (Stop Resolved)) w) = trace w ++ replicate n TransportStop.
Proof.
  revert w sc. induction n as [|n IH]; intros w sc Hsc; simpl.
  - by rewrite app_nil_r.
  - rewrite (stop_resolved w sc Hsc). simpl.
    erewrite IH by reflexivity. simpl. by rewrite <- app_assoc.
Qed.

(** A stop and a start, both resolving, on a session with a transport in
    any state: the setup is run afresh (the transport's [stop], its [start]
    and the five subscriptions, in that order), the flag is set, and the
    emitter is empty, so that every listener registered before, for a
    lifecycle signal as for a domain event, is gone; [on] then registers
    for every event. *)
Theorem restart_drops_every_listener w sc :
  signalingClient (this w) = Some sc ->
  let w' := run body [Stop Resolved; Request (Start Resolved)] w in
  isRealtimeNotificationsStarted (this w') = true /\
  emitter (this w') = ∅ /\
  trace w' = trace w ++ TransportStop :: TransportStart ::
                        map TransportOn bridge_handlers.*1 /\
  forall k l, exists w'',
    on k l w' = Normal tt w'' /\
    EventEmitter.listeners k (emitter (this w'')) = [l].
Proof.
  intros Hsc w'. subst w'. cbn [run step].
  rewrite (stop_resolved w sc Hsc). cbn [world_of perform].
  erewrite start_resolved by reflexivity. simpl.
  split; [reflexivity|]. split; [reflexivity|].
  split; [by rewrite <- app_assoc|].
  intros k l. eexists. split.
  - eapply on_registers; [reflexivity|by left].
  - simpl. by rewrite listeners_on, listeners_empty.
Qed.

(** A listener for the connected signal may be registered before the
    session is started and is served afterwards: registered on a session
    whose transport has no handler yet, it is called, with no argument and
    after the listeners registered before it, when the transport reports
    [Connected] once [startRealtimeNotifications] has resolved. *)
Theorem early_lifecycle_listener_is_served w l :
  signalingClient (this w) = Some {| handlers := [] |} ->
  isRealtimeNotificationsStarted (this w) = false ->
  (forall x, x ∈ EventEmitter.listeners realTimeNotificationConnected (emitter (this w)) ++ [l] ->
             never_throws body x = true) ->
  let w1 := run body [Request (Subscribe realTimeNotificationConnected l);
                      Request (Start Resolved)] w in
  exists w2,
    transport_raises body Signaling.connectionChanged (VConnectionState Connected) w1
      = Normal tt w2 /\
    trace w2 = trace w1 ++ Emit realTimeNotificationConnected [] ::
      map (fun x => Call x [])
          (EventEmitter.listeners realTimeNotificationConnected (emitter (this w)) ++ [l]).
Proof.
  intros Hsc Hidle Hquiet w1. subst w1. cbn [run step perform].
  rewrite (on_registers realTimeNotificationConnected l w _ Hsc) by by right.
  cbn [world_of]. erewrite start_resolved by (simpl; eauto). simpl.
  match goal with |- context [transport_raises body _ _ ?x] => set (w1 := x) end.
  assert (EventEmitter.listeners realTimeNotificationConnected (emitter (this w1)) =
          EventEmitter.listeners realTimeNotificationConnected (emitter (this w)) ++ [l])
    as Hls by apply listeners_on.
  destruct (emit_returns body realTimeNotificationConnected [] w1
              {| handlers := bridge_handlers |} eq_refl eq_refl)
    as (b & w2 & He & _ & _ & Ht).
  { rewrite Hls. exact Hquiet. }
  exists w2. rewrite (transport_raises_published body _ _ w1 eq_refl). simpl.
  rewrite He. split; [reflexivity|]. by rewrite Ht, Hls.
Qed.

End Composition.

(** ** A listener that removes itself *)

Section Repetition.

Context {Payload : Type}.
Variable body : ListenerRef -> list Action.

Implicit Types (w : World Payload) (k : ChatEventId) (l : ListenerRef).
Implicit Types (ls : list ListenerRef) (args : list (Value Payload)) (v : Value Payload).
Implicit Types (sc : SignalingClient).

Lemma call_each_silent ls args w :
  (forall x, x ∈ ls -> body x = []) ->
  call_each body ls args w =
  Normal tt {| this := this w; trace := trace w ++ map (fun x => Call x args) ls |}.
Proof.
  revert w. induction ls as [|x ls IH]; intros w Hls; simpl.
  - rewrite app_nil_r. by destruct w.
  - unfold bind at 1, call, bind, log. rewrite (Hls x) by by left. simpl.
    rewrite IH by (intros y Hy; apply Hls; by right).
    unfold record. simpl. by rewrite <- app_assoc.
Qed.

(** A listener that takes itself off when it is called is called that time
    and not the next: with the flag set and the bridge installed, let the
    array of [k] be [pre ++ l :: post], the body of [l] be [off(k, l)] and
    the other listeners do nothing. A transport event published as [k]
    calls all of [pre ++ l :: post], the listeners after [l] included, and
    leaves [pre ++ post] registered; the same event raised again calls
    [pre ++ post]. *)
Theorem self_removal_shows_next_time name v k args w pre l post :
  signalingClient (this w) = Some {| handlers := bridge_handlers |} ->
  isRealtimeNotificationsStarted (this w) = true ->
  published_as name v = Some (k, args) ->
  EventEmitter.listeners k (emitter (this w)) = pre ++ l :: post ->
  l ∉ pre -> l ∉ post ->
  body l = [CallOff k l] ->
  (forall x, x ∈ pre ++ post -> body x = []) ->
  exists w1 w2,
    transport_raises body name v w = Normal tt w1 /\
    trace w1 = trace w ++ Emit k args :: map (fun x => Call x args) (pre ++ l :: post) /\
    EventEmitter.listeners k (emitter (this w1)) = pre ++ post /\
    transport_raises body name v w1 = Normal tt w2 /\
    trace w2 = trace w1 ++ Emit k args :: map (fun x => Call x args) (pre ++ post).
Proof.
  intros Hsc Hon Hpub Hls Hpre Hpost Hl Hothers.
  assert (emitter (this w) !! k = Some (pre ++ l :: post)) as Hk.
  { destruct pre; simpl in *; by apply listeners_cons_lookup. }
  assert (forall (ls1 ls2 : list ListenerRef) w0,
            (forall x, x ∈ ls1 ++ ls2 -> body x = []) ->
            signalingClient (this w0) = Some {| handlers := bridge_handlers |} ->
            call_each body (ls1 ++ l :: ls2) args w0 =
            Normal tt
              {| this := set_emitter (EventEmitter.removeListener k l (emitter (this w0)))
                           (this w0);
                 trace := trace w0 ++ map (fun x => Call x args) (ls1 ++ l :: ls2) |})
    as Hround.
  { intros ls1 ls2 w0 Hquiet Hsc0. induction ls1 as [|x ls1 IH] in w0, Hquiet, Hsc0 |- *.
    - cbn [app call_each]. unfold bind at 1, call, bind at 1, log. rewrite Hl.
      cbn [run_body run_action]. unfold bind at 1.
      rewrite (off_unregisters k l (record (Call l args) w0) _ Hsc0). unfold ret.
      rewrite call_each_silent by (intros y Hy; apply Hquiet; exact Hy).
      simpl. by rewrite <- app_assoc.
    - cbn [app call_each]. unfold bind at 1, call, bind at 1, log.
      rewrite (Hquiet x) by by left. cbn [run_body]. unfold ret.
      rewrite IH; [|intros y Hy; apply Hquiet; by right|exact Hsc0].
      simpl. by rewrite <- app_assoc. }
  set (w1 := {| this := set_emitter (EventEmitter.removeListener k l (emitter (this w)))
                          (this w);
                trace := trace w ++ Emit k args ::
                           map (fun x => Call x args) (pre ++ l :: post) |}).
  assert (EventEmitter.listeners k (emitter (this w1)) = pre ++ post) as Hls1.
  { simpl. rewrite listeners_removeListener, Hls.
    by rewrite (remove_last_split l pre post Hpost). }
  exists w1.
  assert (transport_raises body name v w = Normal tt w1) as Hfirst.
  { rewrite (transport_raises_published body name v w Hsc), Hpub.
    unfold emit, bind, log, get_this, ret. simpl. rewrite Hk.
    rewrite Hround by (exact Hothers || exact Hsc). simpl.
    unfold w1. f_equal. f_equal. by rewrite <- app_assoc. }
  destruct (emit_returns body k args w1 {| handlers := bridge_handlers |} Hsc Hon)
    as (b & w2 & He & _ & _ & Ht).
  { rewrite Hls1. intros x Hx. unfold never_throws. by rewrite (Hothers x Hx). }
  exists w2. split; [exact Hfirst|]. split; [reflexivity|]. split; [exact Hls1|].
  split.
  - rewrite (transport_raises_published body name v w1 Hsc), Hpub. by rewrite He.
  - by rewrite Ht, Hls1.
Qed.

End Repetition.

(** ** The further properties at sample sessions *)

(** [on] and [off] of a lifecycle signal on a new session. *)
Lemma on_then_off_restores_witness :
  exists w1 w2,
    on realTimeNotificationDisconnected 7 (@new_world string true) = Normal tt w1 /\
    off realTimeNotificationDisconnected 7 w1 = Normal tt w2 /\
    EventEmitter.listeners realTimeNotificationDisconnected (emitter (this w2)) = [].
Proof.
  destruct (on_then_off_restores (@new_world string true) {| handlers := [] |}
              realTimeNotificationDisconnected 7 eq_refl (or_intror eq_refl))
    as (w1 & w2 & Hon & Hoff & Hls & _).
  exists w1, w2. split; [exact Hon|]. split; [exact Hoff|]. by rewrite Hls.
Defined.

(** Listener [1], registered twice, is called twice. *)
Lemma called_once_per_registration_witness :
  exists w',
    transport_raises Scenario.quiet Signaling.participantsAdded Scenario.u1
      Scenario.duplicate_listener = Normal tt w' /\
    times_called 1 (trace w') = 2.
Proof.
  destruct (called_once_per_registration Scenario.quiet Signaling.participantsAdded
              Scenario.u1 participantsAdded [Scenario.u1] Scenario.duplicate_listener 1
              eq_refl eq_refl eq_refl (fun x _ => eq_refl))
    as (w' & Hraise & Htimes).
  exists w'. split; [exact Hraise|]. rewrite Htimes. reflexivity.
Defined.

(** With a listener that throws, the only call is of a registered
    listener. *)
Lemma delivery_only_to_registered_witness :
  exists t,
    trace (world_of (transport_raises Scenario.faulty Signaling.participantsAdded
                       Scenario.u1 Scenario.two_listeners))
      = trace Scenario.two_listeners ++ t /\
    forall l args, (l, args) ∈ listener_calls t -> l ∈ [1; 2].
Proof.
  destruct (delivery_only_to_registered Scenario.faulty Signaling.participantsAdded
              Scenario.u1 Scenario.two_listeners eq_refl) as (t & Ht & Hcalls).
  exists t. split; [exact Ht|].
  intros l args Hin. destruct (Hcalls l args Hin) as (k & Hpub & Hl).
  injection Hpub as <- _. exact Hl.
Defined.

(** A [stop] that rejects on a started session with two listeners. *)
Lemma stop_rejected_keeps_listeners_witness :
  exists w',
    settle (Rejected (Error "stop failed"%string))
      (stopRealtimeNotifications Scenario.two_listeners)
      = Thrown (Error "stop failed"%string) w' /\
    isRealtimeNotificationsStarted (this w') = false /\
    EventEmitter.listeners participantsAdded (emitter (this w')) = [1; 2] /\
    on participantsAdded 3 w' = Thrown must_start_first w'.
Proof.
  destruct (stop_rejected_keeps_listeners Scenario.two_listeners
              {| handlers := bridge_handlers |} (Error "stop failed"%string) eq_refl)
    as (w' & Hstop & Hflag & Hem & _ & Hon).
  exists w'. split; [exact Hstop|]. split; [exact Hflag|].
  split; [by rewrite Hem|]. by apply Hon.
Defined.

(** Three stops of a session that was never started. *)
Lemma stop_is_not_guarded_witness :
  trace (run Scenario.quiet (replicate 3 (Stop Resolved)) (@new_world string true))
  = [TransportStop; TransportStop; TransportStop].
Proof.
  exact (stop_is_not_guarded Scenario.quiet 3 (@new_world string true)
           {| handlers := [] |} eq_refl).
Defined.

(** A restart of a started session with two listeners. *)
Lemma restart_drops_every_listener_witness :
  emitter (this (run Scenario.quiet [Stop Resolved; Request (Start Resolved)]
                   Scenario.two_listeners)) = ∅ /\
  isRealtimeNotificationsStarted
    (this (run Scenario.quiet [Stop Resolved; Request (Start Resolved)]
             Scenario.two_listeners)) = true.
Proof.
  destruct (restart_drops_every_listener Scenario.quiet Scenario.two_listeners
              {| handlers := bridge_handlers |} eq_refl) as (Hflag & Hem & _).
  split; [exact Hem|exact Hflag].
Defined.

(** A listener of the connected signal registered on a new session. *)
Lemma early_lifecycle_listener_is_served_witness :
  exists w2,
    transport_raises Scenario.quiet Signaling.connectionChanged (VConnectionState Connected)
      (run Scenario.quiet [Request (Subscribe realTimeNotificationConnected 8);
                           Request (Start Resolved)] (@new_world string true))
      = Normal tt w2 /\
    listener_calls (trace w2) = [(8, [])].
Proof.
  destruct (early_lifecycle_listener_is_served Scenario.quiet (@new_world string true) 8
              eq_refl eq_refl (fun x _ => eq_refl)) as (w2 & Hraise & Ht).
  exists w2. split; [exact Hraise|]. rewrite Ht. reflexivity.
Defined.

(** Listener [5], between [4] and [6], takes itself off. *)
Lemma self_removal_shows_next_time_witness :
  exists w1 w2,
    transport_raises Samples.once Signaling.participantsAdded Scenario.u1
      (perform_all [Subscribe participantsAdded 4; Subscribe participantsAdded 5;
                    Subscribe participantsAdded 6] Scenario.active) = Normal tt w1 /\
    EventEmitter.listeners participantsAdded (emitter (this w1)) = [4; 6] /\
    transport_raises Samples.once Signaling.participantsAdded Scenario.u1 w1 = Normal tt w2 /\
    listener_calls (trace w2) =
      [(4, [Scenario.u1]); (5, [Scenario.u1]); (6, [Scenario.u1]);
       (4, [Scenario.u1]); (6, [Scenario.u1])].
Proof.
  destruct (self_removal_shows_next_time Samples.once Signaling.participantsAdded
              Scenario.u1 participantsAdded [Scenario.u1]
              (perform_all [Subscribe participantsAdded 4; Subscribe participantsAdded 5;
                            Subscribe participantsAdded 6] Scenario.active)
              [4] 5 [6] eq_refl eq_refl eq_refl eq_refl)
    as (w1 & w2 & H1 & Ht1 & Hls & H2 & Ht2).
  - apply not_elem_of_cons. split; [discriminate|apply not_elem_of_nil].
  - apply not_elem_of_cons. split; [discriminate|apply not_elem_of_nil].
  - reflexivity.
  - intros x Hx. unfold Samples.once. destruct (decide (x = 5)) as [->|]; [|done].
    exfalso. simpl in Hx.
    apply elem_of_cons in Hx as [Hx|Hx]; [discriminate Hx|].
    apply elem_of_cons in Hx as [Hx|Hx]; [discriminate Hx|].
    by apply elem_of_nil in Hx.
  - exists w1, w2. split; [exact H1|]. split; [exact Hls|]. split; [exact H2|].
    rewrite Ht2, Ht1. reflexivity.
Defined.

(** ** After a start that rejected *)

Section RejectedStart.

Context {Payload : Type}.
Variable body : ListenerRef -> list Action.

Implicit Types (w : World Payload) (k : ChatEventId) (l : ListenerRef).
Implicit Types (sc : SignalingClient) (ss : list (@Step Payload)).

Lemma subscriptions_installed_app (t1 t2 : list (Effect Payload)) :
  subscriptions_installed (t1 ++ t2) =
  subscriptions_installed t1 ++ subscriptions_installed t2.
Proof. apply omap_app. Qed.

(** What holds of a started session until it is stopped: the transport it
    has, the flag, and the calls made to the transport so far. *)
Lemma step_keeps_started s w sc n subs :
  is_stop s = false ->
  signalingClient (this w) = Some sc /\
  isRealtimeNotificationsStarted (this w) = true /\
  transport_starts (trace w) = n /\
  subscriptions_installed (trace w) = subs ->
  signalingClient (this (world_of (step body s w))) = Some sc /\
  isRealtimeNotificationsStarted (this (world_of (step body s w))) = true /\
  transport_starts (trace (world_of (step body s w))) = n /\
  subscriptions_installed (trace (world_of (step body s w))) = subs.
Proof.
  intros Hs Hw.
  assert (forall k l w0,
            signalingClient (this w0) = Some sc /\
            isRealtimeNotificationsStarted (this w0) = true /\
            transport_starts (trace w0) = n /\
            subscriptions_installed (trace w0) = subs ->
            forall w1, same_session w0 w1 ->
            signalingClient (this w1) = Some sc /\
            isRealtimeNotificationsStarted (this w1) = true /\
            transport_starts (trace w1) = n /\
            subscriptions_installed (trace w1) = subs) as Hsame.
  { intros _ _ w0 (H1 & H2 & H3 & H4) w1 (E1 & E2 & E3).
    rewrite E1, E2, E3. by repeat split. }
  destruct s as [[k l|k l|o]|o|name v]; simpl in *; try discriminate Hs.
  - exact (Hsame k l w Hw _ (on_same_session k l w)).
  - exact (Hsame k l w Hw _ (off_same_session k l w)).
  - destruct Hw as (Hsc & Hon & Hn & Hsubs).
    rewrite (start_when_started w sc Hsc Hon). by repeat split.
  - apply (transport_raises_preserves body
             (fun w0 => signalingClient (this w0) = Some sc /\
                        isRealtimeNotificationsStarted (this w0) = true /\
                        transport_starts (trace w0) = n /\
                        subscriptions_installed (trace w0) = subs)); [| | |exact Hw].
    + intros e w0 He (H1 & H2 & H3 & H4). simpl.
      rewrite transport_starts_app, subscriptions_installed_app, H3, H4.
      destruct e; try discriminate He; simpl; unfold transport_starts; simpl;
        rewrite app_nil_r; repeat split; auto with lia.
    + intros k l w0 Hw0. exact (Hsame k l w0 Hw0 _ (on_same_session k l w0)).
    + intros k l w0 Hw0. exact (Hsame k l w0 Hw0 _ (off_same_session k l w0)).
Qed.

Lemma run_keeps_started ss w sc n subs :
  forallb (fun s => negb (is_stop s)) ss = true ->
  signalingClient (this w) = Some sc /\
  isRealtimeNotificationsStarted (this w) = true /\
  transport_starts (trace w) = n /\
  subscriptions_installed (trace w) = subs ->
  signalingClient (this (run body ss w)) = Some sc /\
  isRealtimeNotificationsStarted (this (run body ss w)) = true /\
  transport_starts (trace (run body ss w)) = n /\
  subscriptions_installed (trace (run body ss w)) = subs.
Proof.
  revert w. induction ss as [|s rest IH]; intros w Hss Hw; [exact Hw|].
  simpl in Hss. apply andb_true_iff in Hss as [Hs Hrest]. apply negb_true_iff in Hs.
  simpl. apply IH; [exact Hrest|]. by apply step_keeps_started.
Qed.

(** C10, as the code has it. On a session with a transport and the flag
    unset, let the transport's [start] reject with [e]. Then
    [startRealtimeNotifications] throws [e] with the flag left set, the
    registry of the transport and the emitter as they were, and only the
    [start] call added to the trace. From there on, and until
    [stopRealtimeNotifications] is called, whatever calls of [on], [off]
    and [startRealtimeNotifications] and whatever transport events follow,
    and whatever the listeners do: the flag stays set, the transport's
    [start] is not called again and no subscription is installed, a further
    [startRealtimeNotifications] returns at once without awaiting, and [on]
    returns for every event, the domain events included, and registers the
    listener. Where the transport had no handler before the call, as on a
    new session, nothing the transport raises in that time is emitted or
    delivered. *)
Theorem rejected_start_is_never_retried w sc e :
  signalingClient (this w) = Some sc ->
  isRealtimeNotificationsStarted (this w) = false ->
  exists w',
    settle (Rejected e) (startRealtimeNotifications w) = Thrown e w' /\
    isRealtimeNotificationsStarted (this w') = true /\
    signalingClient (this w') = Some sc /\
    emitter (this w') = emitter (this w) /\
    trace w' = trace w ++ [TransportStart] /\
    forall ss,
      forallb (fun s => negb (is_stop s)) ss = true ->
      isRealtimeNotificationsStarted (this (run body ss w')) = true /\
      signalingClient (this (run body ss w')) = Some sc /\
      transport_starts (trace (run body ss w')) = transport_starts (trace w') /\
      subscriptions_installed (trace (run body ss w')) =
        subscriptions_installed (trace w') /\
      startRealtimeNotifications (run body ss w') = Done (Normal tt (run body ss w')) /\
      (forall k l, exists w'',
         on k l (run body ss w') = Normal tt w'' /\
         EventEmitter.listeners k (emitter (this w'')) =
           EventEmitter.listeners k (emitter (this (run body ss w'))) ++ [l]) /\
      (handlers sc = [] ->
       forall name v,
         transport_raises body name v (run body ss w') = Normal tt (run body ss w')).
Proof.
  intros Hsc Hidle. eexists.
  split; [exact (start_rejected w sc e Hsc Hidle)|].
  set (w' := record TransportStart (with_this (set_started true (this w)) w)).
  split; [reflexivity|]. split; [exact Hsc|]. split; [reflexivity|]. split; [reflexivity|].
  intros ss Hss.
  destruct (run_keeps_started ss w' sc (transport_starts (trace w'))
              (subscriptions_installed (trace w')) Hss)
    as (Hsc'' & Hon'' & Hstarts & Hsubs).
  { split; [exact Hsc|]. by repeat split. }
  split; [exact Hon''|]. split; [exact Hsc''|]. split; [exact Hstarts|].
  split; [exact Hsubs|].
  split; [by apply (start_when_started _ sc)|].
  split.
  - intros k l. eexists. split; [apply (on_registers k l _ sc); auto|].
    simpl. apply listeners_on.
  - intros Hnil name v. by apply (transport_raises_unbridged body name v _ sc).
Qed.

End RejectedStart.

(** C10 at a new session with a transport whose [start] rejects, followed by
    an [on], a transport event and two more starts. *)
Lemma rejected_start_is_never_retried_witness :
  exists w',
    settle (Rejected (Error "connect failed"%string))
      (startRealtimeNotifications (@new_world string true))
      = Thrown (Error "connect failed"%string) w' /\
    isRealtimeNotificationsStarted (this w') = true /\
    transport_starts
      (trace (run Scenario.faulty
                [Request (Subscribe chatMessageReceived 1);
                 Raised Signaling.chatMessageReceived Scenario.u1;
                 Request (Start Resolved); Request (Start Resolved)] w')) = 1 /\
    subscriptions_installed
      (trace (run Scenario.faulty
                [Request (Subscribe chatMessageReceived 1);
                 Raised Signaling.chatMessageReceived Scenario.u1;
                 Request (Start Resolved); Request (Start Resolved)] w')) = [] /\
    returns (on chatMessageReceived 1 w') = true /\
    transport_raises Scenario.faulty Signaling.chatMessageReceived Scenario.u1
      (run Scenario.faulty [Request (Subscribe chatMessageReceived 1)] w') =
      Normal tt (run Scenario.faulty [Request (Subscribe chatMessageReceived 1)] w').
Proof.
  destruct (rejected_start_is_never_retried Scenario.faulty (@new_world string true)
              {| handlers := [] |} (Error "connect failed"%string) eq_refl eq_refl)
    as (w' & Hthrown & Hflag & _ & _ & Htrace & Hlater).
  exists w'. split; [exact Hthrown|]. split; [exact Hflag|].
  destruct (Hlater [Request (Subscribe chatMessageReceived 1);
                    Raised Signaling.chatMessageReceived Scenario.u1;
                    Request (Start Resolved); Request (Start Resolved)] eq_refl)
    as (_ & _ & Hstarts & Hsubs & _).
  split; [rewrite Hstarts, Htrace; reflexivity|].
  split; [rewrite Hsubs, Htrace; reflexivity|].
  destruct (Hlater [] eq_refl) as (_ & _ & _ & _ & _ & Hon & _).
  destruct (Hlater [Request (Subscribe chatMessageReceived 1)] eq_refl)
    as (_ & _ & _ & _ & _ & _ & Hraise).
  split.
  - destruct (Hon chatMessageReceived 1) as (w'' & Hw'' & _).
    change (run Scenario.faulty [] w') with w' in Hw''. by rewrite Hw''.
  - by apply Hraise.
Defined.

(** C10 as worded fails: a [stopRealtimeNotifications] unsets the flag, so
    the start after it calls the transport's [start] again and installs the
    bridge, and a domain event then reaches a listener. *)
Lemma stop_then_start_retries :
  let rejected :=
    world_of (settle (Rejected (Error "connect failed"%string))
                (startRealtimeNotifications (@new_world string true))) in
  let later :=
    run Scenario.quiet
      [Stop Resolved; Request (Start Resolved);
       Request (Subscribe chatMessageReceived 1)] rejected in
  isRealtimeNotificationsStarted (this rejected) = true /\
  (exists w1 resumption,
     startRealtimeNotifications (run Scenario.quiet [Stop Resolved] rejected)
       = Await start w1 resumption) /\
  transport_starts (trace later) = 2 /\
  subscriptions_installed (trace later) = bridge_handlers.*1 /\
  listener_calls
    (trace (world_of (transport_raises Scenario.quiet Signaling.chatMessageReceived
                        Scenario.u1 later))) = [(1, [Scenario.u1])] /\
  ~ rejected_start_is_final Scenario.quiet rejected.
Proof.
  cbv zeta. split; [reflexivity|].
  split; [do 2 eexists; reflexivity|].
  split; [reflexivity|]. split; [reflexivity|]. split; [vm_compute; reflexivity|].
  intros Hfinal. destruct (Hfinal [Stop Resolved]) as [Hstart _].
  discriminate Hstart.
Qed.
